(** * deskauth: the desktop OAuth flow of [oauth.go], embedded and verified

    The development follows the layout of the Go package:
    - errors, tokens and the provider configuration ([oauth2.Config]);
    - the nonce generator [randhex];
    - the file backed token cache ([fileStore]);
    - the callback handler and its single-slot hand-off channel;
    - the orchestrator [tokenInteractive] and the entry point
      [TokenSource].

    Go's [(value, error)] results are pairs of options ([None] is [nil]).
    The caller's [*oauth2.Config] lives in a heap and is reached through a
    pointer, so that in-place updates are visible to every alias.  The
    goroutines of one flow (HTTP handler, serve loop, orchestrator) are
    interleaved by an explicit schedule of events. *)

From Stdlib Require Import String Ascii List ZArith NArith Lia Bool.
From stdpp Require Import base option list gmap strings.
Import ListNotations.

Local Open Scope string_scope.
Local Open Scope Z_scope.
Local Open Scope list_scope.

(** ** Errors *)

Module Errors.

(** Error numbers of the operating system that file access can meet. *)
Inductive Errno : Type := ENOENT | EACCES | EISDIR | ENOTDIR | EIO.

(** Go error values: [errors.New] / [fmt.Errorf] without [%w] give an
    [errorString]; [fmt.Errorf] with [%w] and [*fs.PathError] wrap a
    cause; [fs.ErrNotExist] is a sentinel; [syscall.Errno] values come
    from the operating system. *)
Inductive error : Type :=
| errorString (msg : string)
| wrapError (msg : string) (cause : error)
| ErrNotExist
| syscallErrno (e : Errno).

#[global] Instance Errno_eq_dec : EqDecision Errno.
Proof. solve_decision. Defined.

#[global] Instance error_eq_dec : EqDecision error.
Proof. solve_decision. Defined.

Definition Errno_Error (e : Errno) : string :=
  match e with
  | ENOENT => "no such file or directory"
  | EACCES => "permission denied"
  | EISDIR => "is a directory"
  | ENOTDIR => "not a directory"
  | EIO => "input/output error"
  end.

(** The [Error()] method. *)
Definition Error (e : error) : string :=
  match e with
  | errorString msg => msg
  | wrapError msg _ => msg
  | ErrNotExist => "file does not exist"
  | syscallErrno n => Errno_Error n
  end.

Definition errors_New (msg : string) : error := errorString msg.

(** [fmt.Errorf(prefix + "%w", err)]. *)
Definition Errorf_w (prefix : string) (err : error) : error :=
  wrapError (prefix +:+ Error err) err.

(** [fmt.Errorf(prefix + "%s", s)]. *)
Definition Errorf_s (prefix : string) (s : string) : error :=
  errorString (prefix +:+ s).

(** The [%q] verb on a string without characters to escape. *)
Definition quote (s : string) : string :=
  String (ascii_of_nat 34) (s +:+ String (ascii_of_nat 34) "").

(** The [Is] method of [syscall.Errno]. *)
Definition method_Is (err target : error) : bool :=
  match err, target with
  | syscallErrno ENOENT, ErrNotExist => true
  | _, _ => false
  end.

(** [errors.Is]: compare, ask the [Is] method, then unwrap. *)
Fixpoint errors_Is (err target : error) : bool :=
  bool_decide (err = target) || method_Is err target ||
  match err with
  | wrapError _ cause => errors_Is cause target
  | _ => false
  end.

(** [errors.Is] on a possibly nil error. *)
Definition errors_Is_opt (err : option error) (target : error) : bool :=
  match err with
  | Some e => errors_Is e target
  | None => false
  end.

End Errors.
Export Errors.

(** ** Tokens and provider configuration (golang.org/x/oauth2) *)

Record Token : Type := mkToken {
  AccessToken : string;
  TokenType : string;
  RefreshToken : string;
  Expiry : Z
}.

Record Endpoint : Type := mkEndpoint {
  AuthURL : string;
  TokenURL : string
}.

Record Config : Type := mkConfig {
  ClientID : string;
  ClientSecret : string;
  ConfigEndpoint : Endpoint;
  RedirectURL : string;
  Scopes : list string
}.

(** [cfg.RedirectURL = url]. *)
Definition set_RedirectURL (url : string) (c : Config) : Config :=
  {| ClientID := ClientID c;
     ClientSecret := ClientSecret c;
     ConfigEndpoint := ConfigEndpoint c;
     RedirectURL := url;
     Scopes := Scopes c |}.

(** Heap addresses of [oauth2.Config] objects; [None] is the nil pointer. *)
Definition loc : Type := positive.

(** The value the [TokenSource] method of [oauth2.Config] builds: the library always
    allocates a fresh [reuseTokenSource] that keeps the configuration
    pointer and the token, so the interface value is never nil. *)
Record oauth2_TokenSource : Type := mkTokenSource {
  ts_conf : option loc;
  ts_token : Token
}.

(** ** Nonce generator *)

Definition hextable : string := "0123456789abcdef".

Definition hexdigit (n : N) : ascii :=
  match String.get (N.to_nat n) hextable with
  | Some c => c
  | None => "0"%char
  end.

(** [hex.EncodeToString]: two digits per byte, high nibble first. *)
Fixpoint hex_EncodeToString (bs : list Byte.byte) : string :=
  match bs with
  | [] => ""
  | b :: rest =>
      let v := Byte.to_N b in
      String (hexdigit (N.shiftr v 4))
        (String (hexdigit (N.land v 15)) (hex_EncodeToString rest))
  end.

(** ** HTTP requests and responses *)

(** [r.URL.Path] and [r.URL.Query()] of an incoming request. *)
Record Request : Type := mkRequest {
  Path : string;
  Query : gmap string (list string)
}.

(** [url.Values.Get]: the first value of the key, or the empty string. *)
Definition Values_Get (v : gmap string (list string)) (key : string) : string :=
  match v !! key with
  | Some (x :: _) => x
  | _ => ""
  end.

Definition StatusOK : Z := 200.
Definition StatusFound : Z := 302.
Definition StatusNotFound : Z := 404.
Definition StatusPreconditionFailed : Z := 412.

Inductive Response : Type :=
| http_Error (msg : string) (status : Z)
| http_Redirect (url : string) (status : Z)
| http_Page (contentType body : string).

Definition Response_status (w : Response) : Z :=
  match w with
  | http_Error _ st => st
  | http_Redirect _ st => st
  | http_Page _ _ => StatusOK
  end.

(** ** The world a call runs in *)

(** What a path of the file system holds.  The state of the file system
    is a map from paths to entries; how the calls of package [os] read
    and change it is for the environment to say. *)
Inductive FileEntry : Type :=
| Regular (content : list Byte.byte)
| Directory
| Forbidden.

(** Observable actions, in program order. *)
Inductive Effect : Type :=
| EffListen (addr : string)      (* net.Listen bound a socket *)
| EffServe                       (* go s.Serve(ln) *)
| EffShowURL (url : string)      (* a.ShowURL(ctx, url) *)
| EffExchange (code : string)    (* cfg.Exchange(ctx, code, ...) *)
| EffShutdown                    (* deferred s.Shutdown(ctx) *)
| EffClose.                      (* deferred ln.Close() *)

#[global] Instance Effect_eq_dec : EqDecision Effect.
Proof. solve_decision. Defined.

Record World : Type := mkWorld {
  heap : gmap loc Config;
  entropy : list Byte.byte;          (* what crypto/rand will deliver *)
  files : gmap string FileEntry;
  trace : list Effect;
  served : list Response             (* responses the listener has written by
                                        the time the orchestrator stops
                                        presenting or waiting *)
}.

Definition set_heap (h : gmap loc Config) (w : World) : World :=
  mkWorld h (entropy w) (files w) (trace w) (served w).
Definition set_entropy (e : list Byte.byte) (w : World) : World :=
  mkWorld (heap w) e (files w) (trace w) (served w).
Definition log (e : Effect) (w : World) : World :=
  mkWorld (heap w) (entropy w) (files w) (trace w ++ [e]) (served w).
Definition serve (rs : list Response) (w : World) : World :=
  mkWorld (heap w) (entropy w) (files w) (trace w) (served w ++ rs).

(** How a Go call ends: it returns, it panics, or it blocks forever. *)
Inductive Outcome (A : Type) : Type :=
| Returned (a : A)
| Panicked (msg : string)
| Blocked.
Arguments Returned {A} a.
Arguments Panicked {A} msg.
Arguments Blocked {A}.

(** Computations over the world. *)
Definition M (A : Type) : Type := World -> Outcome A * World.

#[global] Instance M_ret : MRet M := fun A a w => (Returned a, w).
#[global] Instance M_bind : MBind M := fun A B k m w =>
  match m w with
  | (Returned a, w') => k a w'
  | (Panicked msg, w') => (Panicked msg, w')
  | (Blocked, w') => (Blocked, w')
  end.

Definition panic {A : Type} (msg : string) : M A := fun w => (Panicked msg, w).
Definition block {A : Type} : M A := fun w => (Blocked, w).
Definition effect (e : Effect) : M unit := fun w => (Returned tt, log e w).

(** [defer d; body]: [d] runs when [body] returns or panics. *)
Definition defer {A : Type} (d : Effect) (body : M A) : M A := fun w =>
  match body w with
  | (Blocked, w') => (Blocked, w')
  | (o, w') => (o, log d w')
  end.

Definition nil_dereference : string :=
  "runtime error: invalid memory address or nil pointer dereference".

(** Reading through a [*oauth2.Config]. *)
Definition load (p : option loc) : M Config := fun w =>
  match p with
  | Some l =>
      match heap w !! l with
      | Some c => (Returned c, w)
      | None => panic nil_dereference w
      end
  | None => panic nil_dereference w
  end.

(** [p.RedirectURL = url], in place. *)
Definition store_RedirectURL (p : option loc) (url : string) : M unit := fun w =>
  match p with
  | Some l =>
      match heap w !! l with
      | Some c => (Returned tt, set_heap (<[l := set_RedirectURL url c]> (heap w)) w)
      | None => panic nil_dereference w
      end
  | None => panic nil_dereference w
  end.

(** [randhex]: eight bytes of [crypto/rand], hex encoded.  [io.ReadFull]
    takes what the source can give, up to eight bytes; when that is less
    than eight it reports an error and [randhex] panics, the bytes it
    took being gone. *)
Definition randhex : M string := fun w =>
  let bs := take 8 (entropy w) in
  let w' := set_entropy (drop 8 (entropy w)) w in
  if decide (List.length bs = 8%nat)
  then (Returned (hex_EncodeToString bs), w')
  else panic "ran out of random" w'.

(** ** The callback endpoint *)

(** The value handed from the handler to the orchestrator. *)
Record resp : Type := mkResp {
  code : string;
  err : option error
}.

#[global] Instance resp_eq_dec : EqDecision resp.
Proof. solve_decision. Defined.

(** [ch := make(chan resp, 1)]: a buffer of at most one value. *)
Definition chan : Type := option resp.

(** [select { case ch <- v: default: }]. *)
Definition try_send (v : resp) (ch : chan) : chan :=
  match ch with
  | None => Some v
  | Some _ => ch
  end.

Definition success_page : string :=
  "<html><body><h2>Authentication successful, you may close this window</h2></body></html>".

(** The [resp] built from the [error] and [code] parameters. *)
Definition callback_resp (q : gmap string (list string)) : resp :=
  let e := Values_Get q "error" in
  if decide (e <> "") then
    mkResp "" (Some (Errorf_s "OAuth server returned error: " e))
  else
    let c := Values_Get q "code" in
    if decide (c <> "") then mkResp c None
    else mkResp "" (Some (errors_New "OAuth server returned invalid response, no code or error")).

(** The [http.HandlerFunc] of [tokenInteractive]; [path], [state] and
    [startURL] are the variables the closure captures. *)
Definition handler (path state startURL : string) (r : Request) (ch : chan)
  : Response * chan :=
  if decide (Path r <> path) then
    (http_Error "not found" StatusNotFound, ch)
  else
    let st := Values_Get (Query r) "state" in
    if decide (st = "") then
      (http_Redirect startURL StatusFound, ch)
    else if decide (st <> state) then
      (http_Error "bad state" StatusPreconditionFailed, ch)
    else
      (http_Page "text/html" success_page, try_send (callback_resp (Query r)) ch).

(** ** One flow: handler, serve loop and orchestrator, interleaved *)

(** What can happen while a flow is running. *)
Inductive Event : Type :=
| EvRequest (r : Request)       (* a request reaches the listener *)
| EvServeExit (e : error)       (* s.Serve(ln) returned e *)
| EvCtxDone                     (* the caller's context is cancelled *)
| EvSelect (prefer_ch : bool).  (* the orchestrator's select is scheduled;
                                   the flag is Go's choice when both
                                   cases are ready *)

(** Where the orchestrator stands with respect to its [select]. *)
Inductive Wait : Type :=
| Waiting
| GotResp (rsp : resp)
| GotDone.

Record FlowState : Type := mkFlow {
  fl_ch : chan;                  (* content of the channel *)
  fl_done : bool;                (* ctx.Done() is closed *)
  fl_orch : Wait;
  fl_delivered : list resp;      (* every value received from the channel *)
  fl_responses : list Response   (* every response written, oldest first *)
}.

Definition flow_init : FlowState := mkFlow None false Waiting [] [].

Section Flow.
Variables path state startURL : string.

(** The orchestrator's [select] on [<-ch] and [<-ctx.Done()]. *)
Definition orch_select (prefer_ch : bool) (s : FlowState) : FlowState :=
  match fl_orch s with
  | Waiting =>
      match fl_ch s, fl_done s with
      | None, false => s
      | Some rsp, false =>
          mkFlow None (fl_done s) (GotResp rsp) (fl_delivered s ++ [rsp]) (fl_responses s)
      | None, true =>
          mkFlow (fl_ch s) (fl_done s) GotDone (fl_delivered s) (fl_responses s)
      | Some rsp, true =>
          if prefer_ch
          then mkFlow None (fl_done s) (GotResp rsp) (fl_delivered s ++ [rsp]) (fl_responses s)
          else mkFlow (fl_ch s) (fl_done s) GotDone (fl_delivered s) (fl_responses s)
      end
  | _ => s
  end.

Definition flow_step (s : FlowState) (ev : Event) : FlowState :=
  match ev with
  | EvRequest r =>
      let '(w, ch') := handler path state startURL r (fl_ch s) in
      mkFlow ch' (fl_done s) (fl_orch s) (fl_delivered s) (fl_responses s ++ [w])
  | EvServeExit e =>
      mkFlow (try_send (mkResp "" (Some e)) (fl_ch s))
             (fl_done s) (fl_orch s) (fl_delivered s) (fl_responses s)
  | EvCtxDone =>
      mkFlow (fl_ch s) true (fl_orch s) (fl_delivered s) (fl_responses s)
  | EvSelect b => orch_select b s
  end.

Definition flow_run (s : FlowState) (evs : list Event) : FlowState :=
  fold_left flow_step evs s.

(** The flow up to the moment the orchestrator leaves its [select]:
    what the schedule holds beyond that moment happens while the result
    is processed and the server goes down. *)
Fixpoint flow_wait (s : FlowState) (evs : list Event) : FlowState :=
  match evs with
  | [] => s
  | ev :: rest =>
      let s' := flow_step s ev in
      match fl_orch s' with
      | Waiting => flow_wait s' rest
      | _ => s'
      end
  end.

End Flow.

(** The events that come before the orchestrator reaches its [select]
    for the first time, that is while the URL is being presented. *)
Fixpoint before_select (evs : list Event) : list Event :=
  match evs with
  | [] => []
  | EvSelect _ :: _ => []
  | ev :: rest => ev :: before_select rest
  end.

(** A request concludes a flow when its path and state are the expected
    ones. *)
Definition concluding (path state : string) (r : Request) : bool :=
  bool_decide (Path r = path) && bool_decide (Values_Get (Query r) "state" = state).

(** ** Collaborators and environment of one call *)

Record Env : Type := mkEnv {
  (* encoding/json *)
  json_Unmarshal : list Byte.byte -> Token + error;
  json_Marshal : Token -> list Byte.byte + error;
  (* golang.org/x/oauth2, with AccessTypeOffline *)
  AuthCodeURL : Config -> string -> string;
  Exchange : Config -> string -> option Token * option error;
  (* os, path/filepath: what the operating system answers in a given
     state of the file system, and the state it leaves *)
  filepath_Dir : string -> string;
  os_ReadFile : string -> gmap string FileEntry -> list Byte.byte * option error;
  os_MkdirAll : string -> gmap string FileEntry ->
                option error * gmap string FileEntry;
  os_WriteFile : string -> list Byte.byte -> gmap string FileEntry ->
                 option error * gmap string FileEntry;
  (* net.Listen("tcp", "localhost:0"): the bound address, or an error *)
  net_Listen : string + error;
  (* ctx.Err() once the context is done *)
  ctx_Err : error;
  (* what happens around the orchestrator from the start of the server
     on; the events before the first EvSelect come in while the URL is
     being presented *)
  schedule : list Event
}.

(** The [Storage] interface; implementations keep their data in the
    file system. *)
Record Storage : Type := mkStorage {
  Storage_Read : gmap string FileEntry -> option Token * option error;
  Storage_Write : Token -> gmap string FileEntry -> option error * gmap string FileEntry
}.

Record Auth : Type := mkAuth {
  AuthConfig : option loc;
  AuthStorage : option Storage;
  ShowURL : option (string -> option error)
}.

(** [PrintURL] prints the URL (standard output is not modelled) and
    reports no error. *)
Definition PrintURL (url : string) : option error := None.

Definition Config_TokenSource (c : option loc) (tok : Token) : option oauth2_TokenSource :=
  Some (mkTokenSource c tok).

Section WithEnv.
Variable E : Env.

Definition fileStore_Read (f : string) (fs : gmap string FileEntry)
  : option Token * option error :=
  let '(bs, err) := os_ReadFile E f fs in
  if errors_Is_opt err ErrNotExist then (None, None)
  else match err with
  | Some e => (None, Some e)
  | None =>
      match json_Unmarshal E bs with
      | inr e => (None, Some (Errorf_w "unmarshaling auth config: " e))
      | inl ret => (Some ret, None)
      end
  end.

Definition fileStore_Write (f : string) (tok : Token) (fs : gmap string FileEntry)
  : option error * gmap string FileEntry :=
  match json_Marshal E tok with
  | inr e => (Some (Errorf_w "marshaling OAuth token: " e), fs)
  | inl bs =>
      let dir := filepath_Dir E f in
      match os_MkdirAll E dir fs with
      | (Some e, fs1) =>
          (Some (Errorf_w ("creating parent dirs for " +:+ quote f +:+ ": ") e), fs1)
      | (None, fs1) =>
          match os_WriteFile E f bs fs1 with
          | (Some e, fs2) => (Some (Errorf_w "saving OAuth token: " e), fs2)
          | (None, fs2) => (None, fs2)
          end
      end
  end.

Definition FileStore (filename : string) : Storage :=
  mkStorage (fileStore_Read filename) (fileStore_Write filename).

Definition tokenFromStorage (a : Auth) : M (option Token * option error) :=
  match AuthStorage a with
  | None => mret (None, None)
  | Some s => fun w => (Returned (Storage_Read s (files w)), w)
  end.

(** The blocking [select] of the orchestrator, under the schedule of
    the environment. *)
Definition await (path state startURL : string) : M Wait := fun w =>
  let s := flow_wait path state startURL flow_init (schedule E) in
  match fl_orch s with
  | Waiting => (Blocked, serve (fl_responses s) w)
  | o => (Returned o, serve (fl_responses s) w)
  end.

(** The server is up while the URL is presented: when the presentation
    fails, the requests that came in meanwhile have been answered. *)
Definition answered_meanwhile (path state startURL : string) : M unit := fun w =>
  let s := flow_run path state startURL flow_init (before_select (schedule E)) in
  (Returned tt, serve (fl_responses s) w).

Definition tokenInteractive (a : Auth) : M (option Token * option error) :=
  match ShowURL a with
  | None => mret (None, Some (errors_New "interactive authentication is unavailable"))
  | Some show =>
      h ← randhex;
      let path := "/" +:+ h in
      match net_Listen E with
      | inr e =>
          mret (None, Some (Errorf_w "creating socket for local HTTP server: " e))
      | inl addr =>
          effect (EffListen addr);;
          defer EffClose (
            let cfg := AuthConfig a in
            store_RedirectURL cfg ("http://" +:+ addr +:+ path);;
            state ← randhex;
            c ← load cfg;
            let startURL := AuthCodeURL E c state in
            effect EffServe;;
            defer EffShutdown (
              c ← load cfg;
              effect (EffShowURL (RedirectURL c));;
              match show (RedirectURL c) with
              | Some e =>
                  answered_meanwhile path state startURL;;
                  mret (None, Some e)
              | None =>
                  o ← await path state startURL;
                  match o with
                  | GotResp rsp =>
                      match err rsp with
                      | Some e => mret (None, Some e)
                      | None =>
                          c ← load cfg;
                          effect (EffExchange (code rsp));;
                          mret (Exchange E c (code rsp))
                      end
                  | GotDone => mret (None, Some (ctx_Err E))
                  | Waiting => block
                  end
              end))
      end
  end.

Definition TokenSource (a : Auth)
  : M (option oauth2_TokenSource * option error) :=
  '(tok, e) ← tokenFromStorage a;
  match e with
  | Some e => mret (None, Some e)
  | None =>
      match tok with
      | Some t => mret (Config_TokenSource (AuthConfig a) t, None)
      | None =>
          '(tok, e) ← tokenInteractive a;
          match e with
          | Some e => mret (None, Some e)
          | None =>
              match tok with
              | None => mret (None, Some (errorString "interactive auth returned no error but also no token"))
              | Some t => mret (Config_TokenSource (AuthConfig a) t, None)
              end
          end
      end
  end.

End WithEnv.

(** ** Vocabulary of the statements *)

(** An event that neither offers a value to the channel nor cancels the
    context: a request that does not conclude, or a turn of the
    orchestrator. *)
Definition quiet (path state : string) (ev : Event) : bool :=
  match ev with
  | EvRequest r => negb (concluding path state r)
  | EvSelect _ => true
  | _ => false
  end.

(** Any event but the cancellation of the context. *)
Definition no_cancel (ev : Event) : bool :=
  match ev with
  | EvCtxDone => false
  | _ => true
  end.

(** The orchestrator has received at most what the log says. *)
Definition flow_inv (s : FlowState) : Prop :=
  match fl_orch s with
  | GotResp v => fl_delivered s = [v]
  | _ => fl_delivered s = []
  end.

(** A value is on its way to the orchestrator, or has arrived. *)
Definition pending (v : resp) (s : FlowState) : Prop :=
  fl_done s = false /\
  ((fl_ch s = Some v /\ fl_orch s = Waiting /\ fl_delivered s = []) \/
   (fl_orch s = GotResp v /\ fl_delivered s = [v])).

(** The secret path and the state of a run, from the entropy it reads. *)
Definition run_path (w : World) : string :=
  "/" +:+ hex_EncodeToString (take 8 (entropy w)).
Definition run_state (w : World) : string :=
  hex_EncodeToString (take 8 (drop 8 (entropy w))).
Definition run_redirect (addr : string) (w : World) : string :=
  "http://" +:+ addr +:+ run_path w.

(** The configuration, authorization URL and flow of a run whose
    listener is bound to [addr] and whose configuration was [c0]. *)
Definition run_config (addr : string) (w : World) (c0 : Config) : Config :=
  set_RedirectURL (run_redirect addr w) c0.
Definition run_startURL (E : Env) (addr : string) (w : World) (c0 : Config) : string :=
  AuthCodeURL E (run_config addr w c0) (run_state w).
Definition run_flow (E : Env) (addr : string) (w : World) (c0 : Config) : FlowState :=
  flow_run (run_path w) (run_state w) (run_startURL E addr w c0) flow_init (schedule E).

(** The responses written until the orchestrator's wait is over, and
    those written while the URL is presented. *)
Definition run_answered (E : Env) (addr : string) (w : World) (c0 : Config)
  : list Response :=
  fl_responses (flow_wait (run_path w) (run_state w) (run_startURL E addr w c0)
                          flow_init (schedule E)).
Definition run_answered_meanwhile (E : Env) (addr : string) (w : World) (c0 : Config)
  : list Response :=
  fl_responses (flow_run (run_path w) (run_state w) (run_startURL E addr w c0)
                         flow_init (before_select (schedule E))).

(** The world at the moment the URL has been presented. *)
Definition run_presented (addr : string) (l : loc) (c0 : Config) (w : World) : World :=
  let w1 := log (EffListen addr) (set_entropy (drop 8 (entropy w)) w) in
  let w2 := set_heap (<[l := run_config addr w c0]> (heap w1)) w1 in
  let w3 := set_entropy (drop 8 (entropy w2)) w2 in
  log (EffShowURL (run_redirect addr w)) (log EffServe w3).

(** The deferred calls of [tokenInteractive]. *)
Definition run_teardown (w : World) : World := log EffClose (log EffShutdown w).

(** What [tokenInteractive] does once the listener is bound. *)
Definition run_result (E : Env) (show : string -> option error)
    (addr : string) (l : loc) (c0 : Config) (w : World)
  : Outcome (option Token * option error) * World :=
  let w1 := run_presented addr l c0 w in
  match show (run_redirect addr w) with
  | Some e =>
      (Returned (None, Some e),
       run_teardown (serve (run_answered_meanwhile E addr w c0) w1))
  | None =>
      let fl := run_flow E addr w c0 in
      let w2 := serve (run_answered E addr w c0) w1 in
      match fl_orch fl with
      | Waiting => (Blocked, w2)
      | GotDone => (Returned (None, Some (ctx_Err E)), run_teardown w2)
      | GotResp rsp =>
          match err rsp with
          | Some e => (Returned (None, Some e), run_teardown w2)
          | None =>
              (Returned (Exchange E (run_config addr w c0) (code rsp)),
               run_teardown (log (EffExchange (code rsp)) w2))
          end
      end
  end.

(** The URLs presented and the codes exchanged, read off a trace. *)
Definition shown_urls (t : list Effect) : list string :=
  flat_map (fun e => match e with EffShowURL u => [u] | _ => [] end) t.
Definition exchanged (t : list Effect) : list string :=
  flat_map (fun e => match e with EffExchange c => [c] | _ => [] end) t.
Definition listened (t : list Effect) : list string :=
  flat_map (fun e => match e with EffListen a => [a] | _ => [] end) t.

(** The cache has nothing to offer: there is no storage, or its read
    reports neither a token nor an error. *)
Definition no_cached_token (a : Auth) (w : World) : Prop :=
  match AuthStorage a with
  | None => True
  | Some s => Storage_Read s (files w) = (None, None)
  end.

(** ** A concrete provider, client and browser *)

Module Scenario.

(** An authorization URL in the shape the provider library builds. *)
Definition provider_AuthCodeURL (c : Config) (st : string) : string :=
  AuthURL (ConfigEndpoint c) +:+ "?access_type=offline&client_id=" +:+ ClientID c
  +:+ "&redirect_uri=" +:+ RedirectURL c +:+ "&response_type=code&state=" +:+ st.

Definition issued (c : string) : Token :=
  mkToken ("access-" +:+ c) "Bearer" ("refresh-" +:+ c) 1700000000.

(** A provider that issues a token for every code. *)
Definition provider_Exchange (c : Config) (cd : string) : option Token * option error :=
  (Some (issued cd), None).

(** A provider library that hands back neither token nor error. *)
Definition silent_Exchange (c : Config) (cd : string) : option Token * option error :=
  (None, None).

(** A file system in memory, standing in for the operating system: a
    path can be reached when every directory on the way to it is there
    as a directory. *)
Fixpoint dirs_from (acc : string) (p : string) : list string :=
  match p with
  | EmptyString => []
  | String c rest =>
      if Ascii.eqb c "/"%char
      then (if String.eqb acc "" then [] else [acc]) ++
           dirs_from (acc +:+ "/") rest
      else dirs_from (acc +:+ String c "") rest
  end.

(** The directories on the way to a path, outermost first. *)
Definition parents (p : string) : list string := dirs_from "" p.

Fixpoint reach (ds : list string) (fs : gmap string FileEntry) : option Errno :=
  match ds with
  | [] => None
  | d :: rest =>
      match fs !! d with
      | None => Some ENOENT
      | Some (Regular _) => Some ENOTDIR
      | Some Forbidden => Some EACCES
      | Some Directory => reach rest fs
      end
  end.

Definition path_error (op name : string) (n : Errno) : error :=
  Errorf_w (op +:+ " " +:+ name +:+ ": ") (syscallErrno n).

Definition mem_ReadFile (name : string) (fs : gmap string FileEntry)
  : list Byte.byte * option error :=
  match reach (parents name) fs with
  | Some n => ([], Some (path_error "open" name n))
  | None =>
      match fs !! name with
      | None => ([], Some (path_error "open" name ENOENT))
      | Some Directory => ([], Some (path_error "read" name EISDIR))
      | Some Forbidden => ([], Some (path_error "open" name EACCES))
      | Some (Regular bs) => (bs, None)
      end
  end.

Fixpoint make_dirs (ds : list string) (fs : gmap string FileEntry)
  : option error * gmap string FileEntry :=
  match ds with
  | [] => (None, fs)
  | d :: rest =>
      match fs !! d with
      | None => make_dirs rest (<[d := Directory]> fs)
      | Some Directory => make_dirs rest fs
      | Some (Regular _) => (Some (path_error "mkdir" d ENOTDIR), fs)
      | Some Forbidden => (Some (path_error "mkdir" d EACCES), fs)
      end
  end.

Definition mem_MkdirAll (dir : string) (fs : gmap string FileEntry)
  : option error * gmap string FileEntry :=
  if String.eqb dir "." then (None, fs)
  else make_dirs (parents dir ++ [dir]) fs.

Definition mem_WriteFile (name : string) (bs : list Byte.byte)
    (fs : gmap string FileEntry) : option error * gmap string FileEntry :=
  match reach (parents name) fs with
  | Some n => (Some (path_error "open" name n), fs)
  | None =>
      match fs !! name with
      | Some Directory => (Some (path_error "open" name EISDIR), fs)
      | Some Forbidden => (Some (path_error "open" name EACCES), fs)
      | _ => (None, <[name := Regular bs]> fs)
      end
  end.

Definition env_with (exchange : Config -> string -> option Token * option error)
    (ln : string + error) (sched : list Event) : Env :=
  mkEnv (fun _ => inr (errorString "unexpected end of JSON input"))
        (fun _ => inl [])
        provider_AuthCodeURL exchange
        (fun _ => ".") mem_ReadFile mem_MkdirAll mem_WriteFile
        ln (errorString "context canceled") sched.

Definition env (sched : list Event) : Env :=
  env_with provider_Exchange (inl "127.0.0.1:4242") sched.

Definition cfg0 : Config :=
  mkConfig "client-id" "client-secret"
           (mkEndpoint "https://provider.example/auth" "https://provider.example/token")
           "" ["profile"].

Definition cfg_loc : loc := 1%positive.

(** Sixteen bytes of entropy: the path is sixteen zeros-and-ones digits,
    the state sixteen a-and-b digits. *)
Definition entropy0 : list Byte.byte := repeat Byte.x01 8 ++ repeat Byte.xab 8.

Definition path0 : string := "/0101010101010101".
Definition state0 : string := "abababababababab".
Definition redirect0 : string := "http://127.0.0.1:4242/0101010101010101".

(** The authorization URL of that flow. *)
Definition start0 : string :=
  provider_AuthCodeURL (set_RedirectURL redirect0 cfg0) state0.

Definition cache_file : string := "oauth.json".

(** An empty file system, an empty trace. *)
Definition world0 : World := mkWorld {[ cfg_loc := cfg0 ]} entropy0 ∅ [] [].

(** The same with a cache file that does not parse. *)
Definition world_corrupt : World :=
  mkWorld {[ cfg_loc := cfg0 ]} entropy0 {[ cache_file := Regular [Byte.x7b] ]} [] [].

Definition auth (E : Env) : Auth :=
  mkAuth (Some cfg_loc) (Some (FileStore E cache_file)) (Some PrintURL).

(** Interactive authentication disabled. *)
Definition auth_silent (E : Env) : Auth :=
  mkAuth (Some cfg_loc) (Some (FileStore E cache_file)) None.

Definition query (kvs : list (string * string)) : gmap string (list string) :=
  list_to_map (map (fun kv => (fst kv, [snd kv])) kvs).

(** The browser comes back with a code. *)
Definition req_code : Request :=
  mkRequest path0 (query [("state", state0); ("code", "ABC123")]).
(** The provider reports an error. *)
Definition req_error : Request :=
  mkRequest path0 (query [("state", state0); ("error", "access_denied")]).
(** Both parameters at once. *)
Definition req_error_and_code : Request :=
  mkRequest path0 (query [("state", state0); ("error", "access_denied"); ("code", "ABC123")]).
(** A forged state. *)
Definition req_forged : Request :=
  mkRequest path0 (query [("state", "0000000000000000"); ("code", "EVIL")]).
(** A [state] parameter with an empty value. *)
Definition req_empty_state : Request :=
  mkRequest path0 (query [("state", ""); ("code", "ABC123")]).
(** No parameters at all. *)
Definition req_probe : Request := mkRequest path0 ∅.

End Scenario.

(** ** Further vocabulary: nonces, traces, offers *)

(** Position of a digit in [hextable]; sixteen for any other character. *)
Definition hex_value (c : ascii) : N :=
  match String.index 0 (String c "") hextable with
  | Some i => N.of_nat i
  | None => 16%N
  end.

Definition is_hex_digit (c : ascii) : bool := (hex_value c <? 16)%N.

Fixpoint string_forall (p : ascii -> bool) (s : string) : bool :=
  match s with
  | EmptyString => true
  | String c rest => p c && string_forall p rest
  end.

(** An event that offers nothing to the channel: a quiet one, or the
    cancellation of the context. *)
Definition silent (path state : string) (ev : Event) : bool :=
  match ev with
  | EvCtxDone => true
  | _ => quiet path state ev
  end.

(** The effects a run of [tokenInteractive] can add to the trace. *)
Inductive run_effects : list Effect -> Prop :=
| effects_none : run_effects []
| effects_aborted (addr : string) :
    run_effects [EffListen addr; EffClose]
| effects_waiting (addr url : string) :
    run_effects [EffListen addr; EffServe; EffShowURL url]
| effects_failed (addr url : string) :
    run_effects [EffListen addr; EffServe; EffShowURL url; EffShutdown; EffClose]
| effects_exchanged (addr url c : string) :
    run_effects [EffListen addr; EffServe; EffShowURL url; EffExchange c;
                 EffShutdown; EffClose].

(** Where a value received by the orchestrator can come from: a request
    with the expected path and state, or the end of the serve loop. *)
Definition offered_by (path state : string) (evs : list Event) (v : resp) : Prop :=
  (exists r, In (EvRequest r) evs /\ concluding path state r = true /\
             v = callback_resp (Query r)) \/
  (exists e, In (EvServeExit e) evs /\ v = mkResp "" (Some e)).

(** The JSON codec gives the token back from what it made of it. *)
Definition round_trips (E : Env) (tok : Token) : Prop :=
  forall bs, json_Marshal E tok = inl bs -> json_Unmarshal E bs = inl tok.

(** The operating system reads back from a path what a successful
    [os.WriteFile] has put there. *)
Definition reads_back (E : Env) (f : string) : Prop :=
  forall bs fs1 fs2,
    os_WriteFile E f bs fs1 = (None, fs2) -> os_ReadFile E f fs2 = (bs, None).

(** The world after the caller has changed the file system. *)
Definition with_files (fs : gmap string FileEntry) (w : World) : World :=
  mkWorld (heap w) (entropy w) fs (trace w) (served w).

(** ** A client with a working cache *)

Module CacheScenario.

Definition cached : Token := Scenario.issued "ABC123".

(** The two bytes standing for the serialized token. *)
Definition blob : list Byte.byte := [Byte.x7b; Byte.x7d].

(** A codec that round-trips [cached] through [blob]. *)
Definition env (ln : string + error) (sched : list Event) : Env :=
  mkEnv (fun bs => if decide (map Byte.to_N bs = map Byte.to_N blob) then inl cached
                   else inr (errorString "unexpected end of JSON input"))
        (fun _ => inl blob)
        Scenario.provider_AuthCodeURL Scenario.provider_Exchange
        (fun _ => ".") Scenario.mem_ReadFile Scenario.mem_MkdirAll
        Scenario.mem_WriteFile
        ln (errorString "context canceled") sched.


(** The cache file holds the token. *)
Definition world_cached : World :=
  mkWorld {[ Scenario.cfg_loc := Scenario.cfg0 ]} Scenario.entropy0
          {[ Scenario.cache_file := Regular blob ]} [] [].

(** Presentation fails. *)
Definition broken_show (url : string) : option error :=
  Some (errorString "no display").

Definition auth_broken_show (E : Env) : Auth :=
  mkAuth (Some Scenario.cfg_loc) None (Some broken_show).

End CacheScenario.

(** * Properties *)

(** ** Nonces *)

Lemma hex_EncodeToString_length (bs : list Byte.byte) :
  String.length (hex_EncodeToString bs) = (2 * List.length bs)%nat.
Proof.
  induction bs as [|b rest IH]; simpl; [reflexivity | rewrite IH; lia].
Qed.


Lemma randhex_returns (w : World) (h : string) (w' : World) :
  randhex w = (Returned h, w') ->
  String.length h = 16%nat /\ h = hex_EncodeToString (take 8 (entropy w)) /\
  w' = set_entropy (drop 8 (entropy w)) w.
Proof.
  unfold randhex. destruct (decide _) as [Hl|Hl]; [|discriminate].
  intros [= <- <-]. rewrite hex_EncodeToString_length, Hl. auto.
Qed.

(** ** The handler *)

Section HandlerFacts.
Variables path state startURL : string.
Hypothesis state_nonempty : state <> "".

Lemma concluding_spec (r : Request) :
  concluding path state r = true <->
  Path r = path /\ Values_Get (Query r) "state" = state.
Proof.
  unfold concluding. rewrite andb_true_iff, !bool_decide_eq_true. tauto.
Qed.

Lemma handler_concluding (r : Request) (ch : chan) :
  concluding path state r = true ->
  handler path state startURL r ch =
    (http_Page "text/html" success_page, try_send (callback_resp (Query r)) ch).
Proof.
  rewrite concluding_spec. intros [Hp Hs]. unfold handler.
  rewrite Hp, Hs.
  destruct (decide (path <> path)) as [?|_]; [congruence|].
  destruct (decide (state = "")) as [?|_]; [congruence|].
  destruct (decide (state <> state)) as [?|_]; [congruence|].
  reflexivity.
Qed.

Lemma handler_not_concluding (r : Request) (ch : chan) :
  concluding path state r = false ->
  snd (handler path state startURL r ch) = ch.
Proof.
  intros Hc. unfold handler.
  destruct (decide (Path r <> path)) as [?|Hp]; [reflexivity|].
  destruct (decide (Values_Get (Query r) "state" = "")) as [?|?]; [reflexivity|].
  destruct (decide (Values_Get (Query r) "state" <> state)) as [?|Hs]; [reflexivity|].
  exfalso. apply dec_stable in Hp. apply dec_stable in Hs.
  assert (concluding path state r = true) by (apply concluding_spec; auto).
  congruence.
Qed.

(** ** The flow *)

Local Abbreviation run := (flow_run path state startURL).
Local Abbreviation step := (flow_step path state startURL).

Lemma flow_run_app (s : FlowState) (evs1 evs2 : list Event) :
  run s (evs1 ++ evs2) = run (run s evs1) evs2.
Proof. apply fold_left_app. Qed.

Lemma flow_run_cons (s : FlowState) (ev : Event) (evs : list Event) :
  run s (ev :: evs) = run (step s ev) evs.
Proof. reflexivity. Qed.

Lemma flow_inv_step (s : FlowState) (ev : Event) :
  flow_inv s -> flow_inv (step s ev).
Proof.
  unfold flow_inv. destruct ev as [r| e | | b]; simpl.
  - destruct (handler path state startURL r (fl_ch s)); simpl; auto.
  - auto.
  - auto.
  - unfold orch_select.
    destruct (fl_orch s) eqn:Ho; simpl; try (rewrite Ho; auto; fail).
    intros Hd.
    destruct (fl_ch s), (fl_done s), b; simpl; rewrite ?Ho, ?Hd; auto.
Qed.

Lemma flow_inv_run (evs : list Event) (s : FlowState) :
  flow_inv s -> flow_inv (run s evs).
Proof.
  revert s. induction evs as [|ev evs IH]; intros s Hs; [exact Hs|].
  rewrite flow_run_cons. apply IH, flow_inv_step, Hs.
Qed.

Lemma delivered_at_most_one (evs : list Event) :
  (List.length (fl_delivered (run flow_init evs)) <= 1)%nat.
Proof.
  assert (flow_inv (run flow_init evs)) as H
    by (apply flow_inv_run; reflexivity).
  unfold flow_inv in H.
  destruct (fl_orch (run flow_init evs)); rewrite H; simpl; lia.
Qed.

(** Events that offer nothing leave the orchestrator waiting on an
    empty channel. *)
Lemma quiet_run (pre : list Event) (s : FlowState) :
  forallb (quiet path state) pre = true ->
  fl_ch s = None -> fl_done s = false -> fl_orch s = Waiting ->
  let s' := run s pre in
  fl_ch s' = None /\ fl_done s' = false /\ fl_orch s' = Waiting /\
  fl_delivered s' = fl_delivered s.
Proof.
  revert s. induction pre as [|ev pre IH]; intros s Hq Hch Hd Ho; simpl.
  - auto.
  - simpl in Hq. apply andb_true_iff in Hq as [Hev Hq].
    destruct ev as [r| e | | b]; simpl in Hev; try discriminate.
    + apply negb_true_iff in Hev.
      pose proof (handler_not_concluding r (fl_ch s) Hev) as Hh.
      simpl. destruct (handler path state startURL r (fl_ch s)) as [w ch'].
      simpl in Hh. subst ch'.
      specialize (IH (mkFlow (fl_ch s) (fl_done s) (fl_orch s) (fl_delivered s)
                             (fl_responses s ++ [w])) Hq Hch Hd Ho).
      exact IH.
    + simpl. unfold orch_select. rewrite Ho, Hch, Hd. apply IH; auto.
Qed.

(** Once the orchestrator has left its select, nothing reaches it. *)
Lemma settled_step (s : FlowState) (ev : Event) :
  fl_orch s <> Waiting ->
  fl_orch (step s ev) = fl_orch s /\ fl_delivered (step s ev) = fl_delivered s.
Proof.
  intros Ho. destruct ev as [r| e | | b]; simpl.
  - destruct (handler path state startURL r (fl_ch s)); simpl; auto.
  - auto.
  - auto.
  - unfold orch_select. destruct (fl_orch s) eqn:E; [congruence | auto | auto].
Qed.

Lemma settled_run (evs : list Event) (s : FlowState) :
  fl_orch s <> Waiting ->
  fl_orch (run s evs) = fl_orch s /\ fl_delivered (run s evs) = fl_delivered s.
Proof.
  revert s. induction evs as [|ev evs IH]; intros s Ho; [auto|].
  rewrite flow_run_cons.
  destruct (settled_step s ev Ho) as [H1 H2].
  destruct (IH (step s ev)) as [H3 H4]; [congruence|].
  split; congruence.
Qed.

(** A value in the channel stays there until the orchestrator takes
    it: later offers are dropped. *)
Lemma pending_step (v : resp) (s : FlowState) (ev : Event) :
  no_cancel ev = true -> pending v s -> pending v (step s ev).
Proof.
  intros Hev [Hd H]. unfold pending.
  destruct ev as [r| e | | b]; simpl in *; try discriminate.
  - destruct (handler path state startURL r (fl_ch s)) as [w ch'] eqn:Hh.
    simpl. split; [exact Hd|].
    destruct H as [(Hch & Ho & Hl)|H]; [left|right; exact H].
    repeat split; auto.
    revert Hh. unfold handler. rewrite Hch.
    repeat (destruct (decide _)); intros [= _ <-]; reflexivity.
  - split; [exact Hd|].
    destruct H as [(Hch & Ho & Hl)|H]; [left|right; exact H].
    rewrite Hch. auto.
  - unfold orch_select.
    destruct H as [(Hch & Ho & Hl)|[Ho Hl]].
    + rewrite Ho, Hch, Hd. simpl. rewrite Hl. auto.
    + rewrite Ho. auto.
Qed.

Lemma pending_run (v : resp) (evs : list Event) (s : FlowState) :
  forallb no_cancel evs = true -> pending v s -> pending v (run s evs).
Proof.
  revert s. induction evs as [|ev evs IH]; intros s Hq Hp; [exact Hp|].
  simpl in Hq. apply andb_true_iff in Hq as [Hev Hq].
  rewrite flow_run_cons. apply IH; [exact Hq|]. apply pending_step; auto.
Qed.

Lemma pending_select (v : resp) (s : FlowState) (b : bool) :
  pending v s ->
  fl_orch (step s (EvSelect b)) = GotResp v /\
  fl_delivered (step s (EvSelect b)) = [v].
Proof.
  intros [Hd [(Hch & Ho & Hl)|[Ho Hl]]]; simpl; unfold orch_select.
  - rewrite Ho, Hch, Hd. simpl. rewrite Hl. auto.
  - rewrite Ho. auto.
Qed.

(** The first concluding request decides what the orchestrator
    receives, whatever follows. *)
Lemma first_concluding_wins (pre : list Event) (r : Request)
      (post1 : list Event) (b : bool) (post2 : list Event) :
  forallb (quiet path state) pre = true ->
  concluding path state r = true ->
  forallb no_cancel post1 = true ->
  let s := run flow_init (pre ++ EvRequest r :: post1 ++ EvSelect b :: post2) in
  fl_orch s = GotResp (callback_resp (Query r)) /\
  fl_delivered s = [callback_resp (Query r)].
Proof.
  intros Hpre Hr Hpost1. cbv zeta.
  rewrite flow_run_app, flow_run_cons, flow_run_app, flow_run_cons.
  destruct (quiet_run pre flow_init Hpre eq_refl eq_refl eq_refl)
    as (Hch & Hd & Ho & Hl).
  set (s0 := run flow_init pre) in *.
  assert (pending (callback_resp (Query r)) (step s0 (EvRequest r))) as Hp.
  { unfold pending. simpl. rewrite (handler_concluding r _ Hr). simpl.
    rewrite Hch. simpl. auto. }
  apply (pending_run _ post1) in Hp; [|exact Hpost1].
  destruct (pending_select _ _ b Hp) as [H1 H2].
  destruct (settled_run post2 _ ltac:(rewrite H1; discriminate)) as [H3 H4].
  split; congruence.
Qed.

(** The wait ends in the state the whole schedule ends in, as far as
    the orchestrator is concerned. *)
Lemma flow_wait_orch (evs : list Event) (s : FlowState) :
  fl_orch (flow_wait path state startURL s evs) = fl_orch (run s evs) /\
  fl_delivered (flow_wait path state startURL s evs) = fl_delivered (run s evs).
Proof.
  revert s. induction evs as [|ev evs IH]; intros s; [auto|].
  rewrite flow_run_cons. simpl.
  destruct (fl_orch (step s ev)) eqn:Ho.
  - apply IH.
  - destruct (settled_run evs (step s ev) ltac:(rewrite Ho; discriminate))
      as [H1 H2].
    rewrite H1, H2, Ho. auto.
  - destruct (settled_run evs (step s ev) ltac:(rewrite Ho; discriminate))
      as [H1 H2].
    rewrite H1, H2, Ho. auto.
Qed.

(** While the orchestrator keeps waiting, the wait takes in the whole
    schedule. *)
Lemma flow_wait_waiting (evs : list Event) (s : FlowState) :
  fl_orch (run s evs) = Waiting ->
  flow_wait path state startURL s evs = run s evs.
Proof.
  revert s. induction evs as [|ev evs IH]; intros s Hw; [reflexivity|].
  rewrite flow_run_cons in *. simpl.
  destruct (fl_orch (step s ev)) eqn:Ho.
  - apply IH, Hw.
  - destruct (settled_run evs (step s ev) ltac:(rewrite Ho; discriminate))
      as [H1 _]. congruence.
  - destruct (settled_run evs (step s ev) ltac:(rewrite Ho; discriminate))
      as [H1 _]. congruence.
Qed.

End HandlerFacts.

(** ** Runs of the orchestrator *)

Lemma randhex_ok (w : World) :
  (8 <= List.length (entropy w))%nat ->
  randhex w = (Returned (hex_EncodeToString (take 8 (entropy w))),
               set_entropy (drop 8 (entropy w)) w).
Proof.
  intros H. unfold randhex.
  destruct (decide _) as [_|Hn]; [reflexivity|].
  exfalso. apply Hn. rewrite length_take. lia.
Qed.

Lemma randhex_short (w : World) :
  (List.length (entropy w) < 8)%nat ->
  randhex w = (Panicked "ran out of random", set_entropy (drop 8 (entropy w)) w).
Proof.
  intros H. unfold randhex. cbv zeta.
  destruct (decide _) as [Hl|_]; [|reflexivity].
  exfalso. rewrite length_take in Hl. lia.
Qed.

Lemma bind_returned {A B : Type} (m : M A) (k : A -> M B) (w w' : World) (a : A) :
  m w = (Returned a, w') -> (m ≫= k) w = k a w'.
Proof. intros H. unfold mbind, M_bind. rewrite H. reflexivity. Qed.

Lemma bind_panicked {A B : Type} (m : M A) (k : A -> M B) (w w' : World) (msg : string) :
  m w = (Panicked msg, w') -> (m ≫= k) w = (Panicked msg, w').
Proof. intros H. unfold mbind, M_bind. rewrite H. reflexivity. Qed.

Lemma bind_effect {B : Type} (e : Effect) (k : unit -> M B) (w : World) :
  (effect e ≫= k) w = k tt (log e w).
Proof. reflexivity. Qed.

Lemma bind_randhex {B : Type} (k : string -> M B) (w : World) :
  (8 <= List.length (entropy w))%nat ->
  (randhex ≫= k) w =
  k (hex_EncodeToString (take 8 (entropy w))) (set_entropy (drop 8 (entropy w)) w).
Proof. intros H. apply bind_returned, randhex_ok, H. Qed.

Lemma bind_store {B : Type} (l : loc) (url : string) (c : Config)
      (k : unit -> M B) (w : World) :
  heap w !! l = Some c ->
  (store_RedirectURL (Some l) url ≫= k) w =
  k tt (set_heap (<[l := set_RedirectURL url c]> (heap w)) w).
Proof.
  intros H. apply bind_returned. unfold store_RedirectURL. rewrite H. reflexivity.
Qed.

Lemma bind_load {B : Type} (l : loc) (c : Config) (k : Config -> M B) (w : World) :
  heap w !! l = Some c -> (load (Some l) ≫= k) w = k c w.
Proof. intros H. apply bind_returned. unfold load. rewrite H. reflexivity. Qed.

Lemma defer_panicked {A : Type} (d : Effect) (body : M A) (w w' : World) (msg : string) :
  body w = (Panicked msg, w') -> defer d body w = (Panicked msg, log d w').
Proof. intros H. unfold defer. rewrite H. reflexivity. Qed.

(** Unfolding the world updates and projecting. *)
Ltac world_simpl :=
  unfold log, set_entropy, set_heap, serve;
  cbn [heap entropy files trace served fst snd].

(** Symbolic execution of [tokenInteractive] past the bind of the
    listener. *)
Lemma tokenInteractive_bound (E : Env) (a : Auth) (w : World)
      (show : string -> option error) (addr : string) (l : loc) (c0 : Config) :
  ShowURL a = Some show ->
  (16 <= List.length (entropy w))%nat ->
  net_Listen E = inl addr ->
  AuthConfig a = Some l ->
  heap w !! l = Some c0 ->
  tokenInteractive E a w = run_result E show addr l c0 w.
Proof.
  intros Hshow Hent Hln Hcfg Hc0.
  unfold tokenInteractive. rewrite Hshow, Hln, Hcfg.
  rewrite bind_randhex by lia. rewrite bind_effect.
  unfold run_result, run_presented, run_flow, run_answered,
    run_answered_meanwhile, run_startURL, run_teardown,
    run_config, run_redirect, run_path, run_state.
  unfold defer at 1.
  rewrite (bind_store l _ c0) by exact Hc0.
  rewrite bind_randhex by (world_simpl; rewrite length_drop; lia).
  rewrite (bind_load l (set_RedirectURL ("http://" +:+ addr +:+ "/" +:+
             hex_EncodeToString (take 8 (entropy w))) c0))
    by (world_simpl; apply lookup_insert_eq).
  rewrite bind_effect.
  unfold defer at 1.
  rewrite (bind_load l (set_RedirectURL ("http://" +:+ addr +:+ "/" +:+
             hex_EncodeToString (take 8 (entropy w))) c0))
    by (world_simpl; apply lookup_insert_eq).
  rewrite bind_effect.
  cbv beta iota delta [RedirectURL set_RedirectURL].
  destruct (show _) as [e|]; [reflexivity|].
  unfold mbind at 1, M_bind at 1, await at 1.
  cbv zeta.
  rewrite (proj1 (flow_wait_orch _ _ _ (schedule E) flow_init)).
  destruct (fl_orch _) as [|rsp|]; [reflexivity| |reflexivity].
  destruct (err rsp) as [e|]; [reflexivity|].
  rewrite (bind_load l (set_RedirectURL ("http://" +:+ addr +:+ "/" +:+
             hex_EncodeToString (take 8 (entropy w))) c0))
    by (world_simpl; apply lookup_insert_eq).
  reflexivity.
Qed.

Lemma run_answered_waiting (E : Env) (addr : string) (w : World) (c0 : Config) :
  fl_orch (run_flow E addr w c0) = Waiting ->
  run_answered E addr w c0 = fl_responses (run_flow E addr w c0).
Proof.
  intros H. unfold run_answered, run_flow in *.
  rewrite flow_wait_waiting by exact H. reflexivity.
Qed.

Lemma run_result_files (E : Env) (show : string -> option error)
      (addr : string) (l : loc) (c0 : Config) (w : World) :
  files (snd (run_result E show addr l c0 w)) = files w.
Proof.
  unfold run_result.
  destruct (show _); [reflexivity|].
  destruct (fl_orch _) as [|rsp|]; [reflexivity| |reflexivity].
  destruct (err rsp); reflexivity.
Qed.

Lemma run_result_heap (E : Env) (show : string -> option error)
      (addr : string) (l : loc) (c0 : Config) (w : World) :
  heap (snd (run_result E show addr l c0 w)) = <[l := run_config addr w c0]> (heap w).
Proof.
  unfold run_result.
  destruct (show _); [reflexivity|].
  destruct (fl_orch _) as [|rsp|]; [reflexivity| |reflexivity].
  destruct (err rsp); reflexivity.
Qed.

(** A run that binds the listener but finds no entropy for the state. *)
Lemma tokenInteractive_state_panic (E : Env) (a : Auth) (w : World)
      (show : string -> option error) (addr : string) (l : loc) (c0 : Config) :
  ShowURL a = Some show ->
  (8 <= List.length (entropy w) < 16)%nat ->
  net_Listen E = inl addr ->
  AuthConfig a = Some l ->
  heap w !! l = Some c0 ->
  tokenInteractive E a w =
    (Panicked "ran out of random",
     log EffClose
       (set_entropy (drop 8 (drop 8 (entropy w)))
          (set_heap (<[l := run_config addr w c0]> (heap w))
             (log (EffListen addr) (set_entropy (drop 8 (entropy w)) w))))).
Proof.
  intros Hshow Hent Hln Hcfg Hc0.
  unfold tokenInteractive. rewrite Hshow, Hln, Hcfg.
  rewrite bind_randhex by lia. rewrite bind_effect.
  apply defer_panicked.
  rewrite (bind_store l _ c0) by exact Hc0.
  apply bind_panicked.
  apply (randhex_short
           (set_heap (<[l := run_config addr w c0]> (heap w))
              (log (EffListen addr) (set_entropy (drop 8 (entropy w)) w)))).
  world_simpl. rewrite length_drop. lia.
Qed.

(** A run whose configuration pointer does not lead to a configuration. *)
Lemma tokenInteractive_nil_config (E : Env) (a : Auth) (w : World)
      (show : string -> option error) (addr : string) :
  ShowURL a = Some show ->
  (8 <= List.length (entropy w))%nat ->
  net_Listen E = inl addr ->
  (AuthConfig a = None \/ exists l, AuthConfig a = Some l /\ heap w !! l = None) ->
  tokenInteractive E a w =
    (Panicked nil_dereference,
     log EffClose (log (EffListen addr) (set_entropy (drop 8 (entropy w)) w))).
Proof.
  intros Hshow Hent Hln Hnil.
  unfold tokenInteractive. rewrite Hshow, Hln.
  rewrite bind_randhex by lia. rewrite bind_effect.
  apply defer_panicked. apply bind_panicked.
  unfold store_RedirectURL.
  destruct Hnil as [->|(l & -> & Hl)]; [reflexivity|].
  change (heap (log (EffListen addr) (set_entropy (drop 8 (entropy w)) w)))
    with (heap w).
  rewrite Hl. reflexivity.
Qed.

(** From the bind of the listener on, the one write to the heap is the
    one to [RedirectURL], however the run ends. *)
Lemma tokenInteractive_heap_bound (E : Env) (a : Auth) (w : World)
      (show : string -> option error) (addr : string) (l : loc) (c0 : Config) :
  ShowURL a = Some show ->
  (8 <= List.length (entropy w))%nat ->
  net_Listen E = inl addr ->
  AuthConfig a = Some l ->
  heap w !! l = Some c0 ->
  heap (snd (tokenInteractive E a w)) = <[l := run_config addr w c0]> (heap w).
Proof.
  intros Hshow Hent Hln Hcfg Hc0.
  destruct (decide (16 <= List.length (entropy w))%nat) as [H16|H16].
  - rewrite (tokenInteractive_bound E a w show addr l c0) by assumption.
    apply run_result_heap.
  - rewrite (tokenInteractive_state_panic E a w show addr l c0)
      by (try assumption; lia).
    reflexivity.
Qed.

Lemma tokenInteractive_frame (E : Env) (a : Auth) (w : World) :
  let w' := snd (tokenInteractive E a w) in
  files w' = files w /\
  (heap w' = heap w \/
   exists show addr l c0,
     ShowURL a = Some show /\ (8 <= List.length (entropy w))%nat /\
     net_Listen E = inl addr /\ AuthConfig a = Some l /\
     heap w !! l = Some c0 /\
     heap w' = <[l := run_config addr w c0]> (heap w)).
Proof.
  cbv zeta.
  destruct (ShowURL a) as [show|] eqn:Hshow.
  2:{ unfold tokenInteractive. rewrite Hshow. simpl. auto. }
  destruct (decide (8 <= List.length (entropy w))%nat) as [H8|H8].
  2:{ unfold tokenInteractive. rewrite Hshow.
      rewrite (bind_panicked _ _ w _ _ (randhex_short w ltac:(lia))).
      simpl. auto. }
  destruct (net_Listen E) as [addr|e] eqn:Hln.
  2:{ unfold tokenInteractive. rewrite Hshow, Hln.
      rewrite bind_randhex by lia. simpl. auto. }
  destruct (AuthConfig a) as [l|] eqn:Hcfg.
  2:{ rewrite (tokenInteractive_nil_config E a w show addr) by auto.
      simpl. auto. }
  destruct (heap w !! l) as [c0|] eqn:Hc0.
  2:{ rewrite (tokenInteractive_nil_config E a w show addr) by eauto.
      simpl. auto. }
  split.
  - destruct (decide (16 <= List.length (entropy w))%nat) as [H16|H16].
    + rewrite (tokenInteractive_bound E a w show addr l c0) by assumption.
      apply run_result_files.
    + rewrite (tokenInteractive_state_panic E a w show addr l c0)
        by (try assumption; lia).
      reflexivity.
  - right. exists show, addr, l, c0.
    repeat (split; [first [assumption | reflexivity]|]).
    apply (tokenInteractive_heap_bound E a w show addr l c0); assumption.
Qed.

(** ** The callback endpoint: state checks *)

Lemma handler_no_state (path state startURL : string) (r : Request) (ch : chan) :
  Path r = path -> Query r !! "state" = None ->
  handler path state startURL r ch = (http_Redirect startURL StatusFound, ch).
Proof.
  intros Hp Hq. unfold handler, Values_Get. rewrite Hp, Hq.
  destruct (decide (path <> path)) as [?|_]; [congruence|].
  destruct (decide ("" = "")) as [_|?]; [reflexivity|congruence].
Qed.

Lemma handler_bad_state (path state startURL : string) (r : Request) (ch : chan) :
  Path r = path ->
  Values_Get (Query r) "state" <> "" ->
  Values_Get (Query r) "state" <> state ->
  handler path state startURL r ch =
    (http_Error "bad state" StatusPreconditionFailed, ch).
Proof.
  intros Hp Hne Hbad. unfold handler. rewrite Hp.
  destruct (decide (path <> path)) as [?|_]; [congruence|].
  destruct (decide (_ = "")) as [?|_]; [congruence|].
  destruct (decide (_ <> state)) as [_|?]; [reflexivity|contradiction].
Qed.

Lemma bad_state_not_concluding (path state : string) (r : Request) :
  Values_Get (Query r) "state" <> state -> concluding path state r = false.
Proof.
  intros H. unfold concluding. apply andb_false_iff. right.
  apply bool_decide_eq_false. exact H.
Qed.

(** Requests without a [state] parameter only produce redirects. *)
Lemma probes_run (path state startURL : string) (rs : list Request) (s : FlowState) :
  Forall (fun r => Path r = path /\ Query r !! "state" = None) rs ->
  flow_run path state startURL s (map EvRequest rs) =
    mkFlow (fl_ch s) (fl_done s) (fl_orch s) (fl_delivered s)
           (fl_responses s ++ map (fun _ => http_Redirect startURL StatusFound) rs).
Proof.
  revert s. induction rs as [|r rs IH]; intros s Hrs; simpl.
  - rewrite app_nil_r. destruct s; reflexivity.
  - inversion Hrs as [|? ? [Hp Hq] Hrest]; subst.
    rewrite (handler_no_state _ state startURL r (fl_ch s) eq_refl Hq).
    rewrite IH by exact Hrest. simpl. rewrite <- app_assoc. reflexivity.
Qed.

(** C2 (amended): the orchestrator receives at most one CallbackResult
    in any schedule.  Take the first request with the expected path and
    state, in a schedule where before it the serve loop has not ended
    and the context has not been cancelled, and where the context is not
    cancelled before the orchestrator's select has run after it: when
    that request carries a non-empty code and no non-empty error
    parameter, the orchestrator receives exactly that code, once, and
    nothing that arrives later (duplicates, errors, a failing serve
    loop, a cancellation after the select) replaces or repeats it. *)
Theorem single_slot_delivery (path state startURL : string)
    (pre : list Event) (r : Request) (c : string)
    (post1 : list Event) (b : bool) (post2 : list Event) :
  state <> "" ->
  forallb (quiet path state) pre = true ->
  concluding path state r = true ->
  Values_Get (Query r) "error" = "" ->
  Values_Get (Query r) "code" = c ->
  c <> "" ->
  forallb no_cancel post1 = true ->
  (forall evs : list Event,
     (List.length (fl_delivered (flow_run path state startURL flow_init evs)) <= 1)%nat) /\
  let s := flow_run path state startURL flow_init
             (pre ++ EvRequest r :: post1 ++ EvSelect b :: post2) in
  fl_orch s = GotResp (mkResp c None) /\ fl_delivered s = [mkResp c None].
Proof.
  intros Hst Hpre Hr He Hc Hne Hpost1. split.
  - intros evs. apply delivered_at_most_one.
  - assert (callback_resp (Query r) = mkResp c None) as Hresp.
    { unfold callback_resp. rewrite He, Hc.
      destruct (decide ("" <> "")) as [?|_]; [congruence|].
      destruct (decide (c <> "")) as [_|?]; [reflexivity|contradiction]. }
    rewrite <- Hresp.
    apply first_concluding_wins; assumption.
Qed.

Lemma single_slot_delivery_witness :
  Scenario.state0 <> "" /\
  forallb (quiet Scenario.path0 Scenario.state0)
          [EvRequest Scenario.req_probe; EvRequest Scenario.req_forged] = true /\
  concluding Scenario.path0 Scenario.state0 Scenario.req_code = true /\
  (let s := flow_run Scenario.path0 Scenario.state0 Scenario.start0 flow_init
              ([EvRequest Scenario.req_probe; EvRequest Scenario.req_forged] ++
               EvRequest Scenario.req_code ::
               [EvRequest Scenario.req_error] ++
               EvSelect true :: [EvRequest Scenario.req_code; EvCtxDone]) in
   fl_orch s = GotResp (mkResp "ABC123" None) /\
   fl_delivered s = [mkResp "ABC123" None]).
Proof.
  split; [discriminate|].
  split; [vm_compute; reflexivity|].
  split; [vm_compute; reflexivity|].
  apply (single_slot_delivery Scenario.path0 Scenario.state0 Scenario.start0
           [EvRequest Scenario.req_probe; EvRequest Scenario.req_forged]
           Scenario.req_code "ABC123"
           [EvRequest Scenario.req_error] true
           [EvRequest Scenario.req_code; EvCtxDone]).
  - discriminate.
  - vm_compute; reflexivity.
  - vm_compute; reflexivity.
  - vm_compute; reflexivity.
  - vm_compute; reflexivity.
  - discriminate.
  - vm_compute; reflexivity.
Defined.

(** C2 as stated fails: a request with the expected path and state that
    carries a code, and an error parameter next to it, concludes the
    flow with the error; the code is never delivered. *)
Lemma code_beside_error_not_delivered :
  concluding Scenario.path0 Scenario.state0 Scenario.req_error_and_code = true /\
  Values_Get (Query Scenario.req_error_and_code) "code" = "ABC123" /\
  let s := flow_run Scenario.path0 Scenario.state0 Scenario.start0 flow_init
             [EvRequest Scenario.req_error_and_code; EvSelect true] in
  fl_delivered s =
    [mkResp "" (Some (errorString "OAuth server returned error: access_denied"))] /\
  fl_delivered s <> [mkResp "ABC123" None].
Proof.
  vm_compute. repeat split; try reflexivity. discriminate.
Qed.

(** C5 (amended): a request on the secret path whose [state] parameter
    is non-empty and differs from the expected value is answered with
    412 Precondition Failed; it offers nothing to the channel and leaves
    the flow as it was, so that a later request with the right state
    still concludes the flow. *)
Theorem forged_state_rejected (path state startURL : string) (r : Request) :
  state <> "" ->
  Path r = path ->
  Values_Get (Query r) "state" <> "" ->
  Values_Get (Query r) "state" <> state ->
  (forall ch : chan,
     handler path state startURL r ch =
       (http_Error "bad state" StatusPreconditionFailed, ch)) /\
  (forall s : FlowState,
     flow_step path state startURL s (EvRequest r) =
       mkFlow (fl_ch s) (fl_done s) (fl_orch s) (fl_delivered s)
              (fl_responses s ++ [http_Error "bad state" StatusPreconditionFailed])) /\
  (forall (pre : list Event) (r' : Request) (post1 : list Event) (b : bool)
          (post2 : list Event),
     forallb (quiet path state) pre = true ->
     concluding path state r' = true ->
     forallb no_cancel post1 = true ->
     let s := flow_run path state startURL flow_init
                (pre ++ EvRequest r :: EvRequest r' :: post1 ++ EvSelect b :: post2) in
     fl_orch s = GotResp (callback_resp (Query r')) /\
     fl_delivered s = [callback_resp (Query r')]).
Proof.
  intros Hst Hp Hne Hbad.
  split; [|split].
  - intros ch. apply handler_bad_state; assumption.
  - intros s. simpl. rewrite handler_bad_state by assumption. reflexivity.
  - intros pre r' post1 b post2 Hpre Hr' Hpost1.
    replace (pre ++ EvRequest r :: EvRequest r' :: post1 ++ EvSelect b :: post2)
      with ((pre ++ [EvRequest r]) ++ EvRequest r' :: post1 ++ EvSelect b :: post2)
      by (rewrite <- app_assoc; reflexivity).
    apply first_concluding_wins; try assumption.
    rewrite forallb_app, Hpre. simpl.
    rewrite (bad_state_not_concluding path state r Hbad). reflexivity.
Qed.

Lemma forged_state_rejected_witness :
  Scenario.state0 <> "" /\
  Path Scenario.req_forged = Scenario.path0 /\
  Values_Get (Query Scenario.req_forged) "state" <> "" /\
  Values_Get (Query Scenario.req_forged) "state" <> Scenario.state0 /\
  handler Scenario.path0 Scenario.state0 Scenario.start0 Scenario.req_forged None =
    (http_Error "bad state" StatusPreconditionFailed, None).
Proof.
  split; [discriminate|].
  split; [reflexivity|].
  split; [vm_compute; discriminate|].
  split; [vm_compute; discriminate|].
  apply (forged_state_rejected Scenario.path0 Scenario.state0 Scenario.start0
           Scenario.req_forged).
  - discriminate.
  - reflexivity.
  - vm_compute; discriminate.
  - vm_compute; discriminate.
Defined.

(** C5 as stated fails: a [state] parameter that is present with an
    empty value differs from the expected state, yet the answer is the
    302 redirect, not 412. *)
Lemma empty_state_redirected :
  Query Scenario.req_empty_state !! "state" = Some [""] /\
  Path Scenario.req_empty_state = Scenario.path0 /\
  Values_Get (Query Scenario.req_empty_state) "state" <> Scenario.state0 /\
  handler Scenario.path0 Scenario.state0 Scenario.start0 Scenario.req_empty_state None =
    (http_Redirect Scenario.start0 StatusFound, None) /\
  Response_status
    (fst (handler Scenario.path0 Scenario.state0 Scenario.start0
            Scenario.req_empty_state None)) <> StatusPreconditionFailed.
Proof.
  vm_compute. repeat split; try reflexivity; discriminate.
Qed.

(** ** The orchestrator and its callbacks *)


Lemma exchanged_snoc (t : list Effect) (e : Effect) :
  exchanged (t ++ [e]) =
  exchanged t ++ match e with EffExchange c => [c] | _ => [] end.
Proof.
  unfold exchanged. rewrite flat_map_app. simpl. rewrite app_nil_r. reflexivity.
Qed.

Lemma shown_urls_snoc (t : list Effect) (e : Effect) :
  shown_urls (t ++ [e]) =
  shown_urls t ++ match e with EffShowURL u => [u] | _ => [] end.
Proof.
  unfold shown_urls. rewrite flat_map_app. simpl. rewrite app_nil_r. reflexivity.
Qed.

Lemma trace_log (e : Effect) (w : World) : trace (log e w) = trace w ++ [e].
Proof. reflexivity. Qed.
Lemma trace_serve (rs : list Response) (w : World) : trace (serve rs w) = trace w.
Proof. reflexivity. Qed.
Lemma trace_set_heap (h : gmap loc Config) (w : World) : trace (set_heap h w) = trace w.
Proof. reflexivity. Qed.
Lemma trace_set_entropy (e : list Byte.byte) (w : World) :
  trace (set_entropy e w) = trace w.
Proof. reflexivity. Qed.

Create Rewrite HintDb world.
#[local] Hint Rewrite trace_log trace_serve trace_set_heap trace_set_entropy
  exchanged_snoc shown_urls_snoc : world.

(** Rewriting the traces of a run into their projections. *)
Ltac trace_simpl :=
  cbv beta iota zeta delta [fst snd run_teardown run_presented];
  autorewrite with world;
  cbv beta iota;
  rewrite ?app_nil_r.

(** C6: in a run whose listener is bound, every request on the secret
    path that has no [state] parameter is answered with a redirect (302)
    to the authorization URL built for the flow; it offers nothing to
    the channel and leaves the flow as it was, and a flow that only sees
    such requests is not concluded: nothing is delivered and the
    orchestrator keeps waiting. *)
Theorem missing_state_redirects (E : Env) (a : Auth) (w : World)
    (show : string -> option error) (addr : string) (l : loc) (c0 : Config)
    (rs : list Request) :
  ShowURL a = Some show ->
  show (run_redirect addr w) = None ->
  (16 <= List.length (entropy w))%nat ->
  net_Listen E = inl addr ->
  AuthConfig a = Some l ->
  heap w !! l = Some c0 ->
  schedule E = map EvRequest rs ->
  Forall (fun r => Path r = run_path w /\ Query r !! "state" = None) rs ->
  let authURL := AuthCodeURL E (run_config addr w c0) (run_state w) in
  (forall (r : Request) (s : FlowState),
     Path r = run_path w -> Query r !! "state" = None ->
     handler (run_path w) (run_state w) authURL r (fl_ch s) =
       (http_Redirect authURL StatusFound, fl_ch s) /\
     flow_step (run_path w) (run_state w) authURL s (EvRequest r) =
       mkFlow (fl_ch s) (fl_done s) (fl_orch s) (fl_delivered s)
              (fl_responses s ++ [http_Redirect authURL StatusFound])) /\
  fl_ch (run_flow E addr w c0) = None /\
  fl_delivered (run_flow E addr w c0) = [] /\
  fst (tokenInteractive E a w) = Blocked /\
  served (snd (tokenInteractive E a w)) =
    served w ++ map (fun _ => http_Redirect authURL StatusFound) rs.
Proof.
  intros Hshow Hnone Hent Hln Hcfg Hc0 Hsched Hrs. cbv zeta.
  assert (run_flow E addr w c0 =
          mkFlow None false Waiting []
            (map (fun _ => http_Redirect
                    (AuthCodeURL E (run_config addr w c0) (run_state w)) StatusFound) rs))
    as Hfl.
  { unfold run_flow. rewrite Hsched.
    rewrite (probes_run _ _ _ rs flow_init Hrs). reflexivity. }
  split; [|split; [|split; [|split]]].
  - intros r s Hp Hq.
    simpl. rewrite (handler_no_state _ _ _ r (fl_ch s) Hp Hq). auto.
  - rewrite Hfl. reflexivity.
  - rewrite Hfl. reflexivity.
  - rewrite (tokenInteractive_bound E a w show addr l c0) by assumption.
    unfold run_result. rewrite Hnone, Hfl. reflexivity.
  - rewrite (tokenInteractive_bound E a w show addr l c0) by assumption.
    unfold run_result. rewrite Hnone.
    rewrite run_answered_waiting by (rewrite Hfl; reflexivity).
    rewrite Hfl. reflexivity.
Qed.

Lemma missing_state_redirects_witness :
  let E := Scenario.env [EvRequest Scenario.req_probe; EvRequest Scenario.req_probe] in
  fst (tokenInteractive E (Scenario.auth E) Scenario.world0) = Blocked /\
  served (snd (tokenInteractive E (Scenario.auth E) Scenario.world0)) =
    [http_Redirect Scenario.start0 StatusFound;
     http_Redirect Scenario.start0 StatusFound].
Proof.
  cbv zeta.
  pose proof (missing_state_redirects
    (Scenario.env [EvRequest Scenario.req_probe; EvRequest Scenario.req_probe])
    (Scenario.auth
       (Scenario.env [EvRequest Scenario.req_probe; EvRequest Scenario.req_probe]))
    Scenario.world0 PrintURL "127.0.0.1:4242" Scenario.cfg_loc Scenario.cfg0
    [Scenario.req_probe; Scenario.req_probe]
    eq_refl eq_refl ltac:(vm_compute; lia) eq_refl eq_refl eq_refl eq_refl
    ltac:(repeat constructor)) as H.
  cbv zeta in H. destruct H as (_ & _ & _ & Hb & Hs).
  split; [exact Hb | exact Hs].
Defined.





(** C3 (amended): once the listener is bound, the one URL handed to the
    presentation capability is the redirect URL, that is "http://"
    followed by the bound address and the secret path, the very string
    the run has stored in the RedirectURL field of the configuration;
    the authorization URL built from it is where the handler sends
    requests that come without a state. *)
Theorem presented_url_is_redirect_url (E : Env) (a : Auth) (w : World)
    (show : string -> option error) (addr : string) (l : loc) (c0 : Config) :
  ShowURL a = Some show ->
  (16 <= List.length (entropy w))%nat ->
  net_Listen E = inl addr ->
  AuthConfig a = Some l ->
  heap w !! l = Some c0 ->
  let w' := snd (tokenInteractive E a w) in
  let url := "http://" +:+ addr +:+ "/" +:+ hex_EncodeToString (take 8 (entropy w)) in
  shown_urls (trace w') = shown_urls (trace w) ++ [url] /\
  (exists c', heap w' !! l = Some c' /\ RedirectURL c' = url) /\
  (forall (r : Request) (ch : chan),
     Path r = run_path w -> Query r !! "state" = None ->
     handler (run_path w) (run_state w) (run_startURL E addr w c0) r ch =
       (http_Redirect (AuthCodeURL E (set_RedirectURL url c0) (run_state w)) StatusFound,
        ch)).
Proof.
  intros Hshow Hent Hln Hcfg Hc0. cbv zeta.
  split; [|split].
  - rewrite (tokenInteractive_bound E a w show addr l c0) by assumption.
    unfold run_result.
    destruct (show _); [trace_simpl; reflexivity|].
    destruct (fl_orch _) as [|rsp|]; [trace_simpl; reflexivity| |trace_simpl; reflexivity].
    destruct (err rsp); trace_simpl; reflexivity.
  - exists (run_config addr w c0). split; [|reflexivity].
    rewrite (tokenInteractive_heap_bound E a w show addr l c0)
      by (try assumption; lia).
    apply lookup_insert_eq.
  - intros r ch Hp Hq. apply handler_no_state; assumption.
Qed.

Lemma presented_url_is_redirect_url_witness :
  let E := Scenario.env [EvRequest Scenario.req_code; EvSelect true] in
  shown_urls (trace (snd (tokenInteractive E (Scenario.auth E) Scenario.world0))) =
    ["http://127.0.0.1:4242/0101010101010101"].
Proof.
  cbv zeta.
  pose proof (presented_url_is_redirect_url
    (Scenario.env [EvRequest Scenario.req_code; EvSelect true])
    (Scenario.auth (Scenario.env [EvRequest Scenario.req_code; EvSelect true]))
    Scenario.world0 PrintURL "127.0.0.1:4242" Scenario.cfg_loc Scenario.cfg0
    eq_refl ltac:(vm_compute; lia) eq_refl eq_refl
    ltac:(vm_compute; reflexivity)) as H.
  cbv zeta in H. destruct H as [H _].
  vm_compute in H. vm_compute. exact H.
Defined.

(** C3 as stated fails: the URL presented is the redirect URL; it is not
    the authorization URL built for the flow and carries no state. *)
Lemma presented_url_not_authorization_url :
  let E := Scenario.env [EvRequest Scenario.req_code; EvSelect true] in
  let w' := snd (tokenInteractive E (Scenario.auth E) Scenario.world0) in
  let authURL :=
    AuthCodeURL E (run_config "127.0.0.1:4242" Scenario.world0 Scenario.cfg0)
                (run_state Scenario.world0) in
  shown_urls (trace w') = [Scenario.redirect0] /\
  authURL = "https://provider.example/auth?access_type=offline&client_id=client-id&redirect_uri=http://127.0.0.1:4242/0101010101010101&response_type=code&state=abababababababab" /\
  Scenario.redirect0 <> authURL /\
  String.index 0 "state" Scenario.redirect0 = None /\
  String.index 0 (run_state Scenario.world0) Scenario.redirect0 = None.
Proof.
  vm_compute. repeat split; try reflexivity. discriminate.
Qed.

(** ** The token cache and the entry point *)

Lemma tokenFromStorage_run (a : Auth) (w : World) :
  tokenFromStorage a w =
    (Returned (match AuthStorage a with
               | None => (None, None)
               | Some s => Storage_Read s (files w)
               end), w).
Proof. unfold tokenFromStorage. destruct (AuthStorage a); reflexivity. Qed.

Lemma no_cached_token_run (a : Auth) (w : World) :
  no_cached_token a w -> tokenFromStorage a w = (Returned (None, None), w).
Proof.
  intros H. rewrite tokenFromStorage_run. unfold no_cached_token in H.
  destruct (AuthStorage a); [rewrite H|]; reflexivity.
Qed.

(** With an empty cache [TokenSource] is the interactive flow followed
    by the wrapping of its token. *)
Lemma TokenSource_fallback (E : Env) (a : Auth) (w : World) :
  no_cached_token a w ->
  TokenSource E a w =
    match tokenInteractive E a w with
    | (Returned (_, Some e), w') => (Returned (None, Some e), w')
    | (Returned (Some t, None), w') =>
        (Returned (Config_TokenSource (AuthConfig a) t, None), w')
    | (Returned (None, None), w') =>
        (Returned (None, Some (errorString
           "interactive auth returned no error but also no token")), w')
    | (Panicked msg, w') => (Panicked msg, w')
    | (Blocked, w') => (Blocked, w')
    end.
Proof.
  intros H. unfold TokenSource.
  rewrite (bind_returned _ _ w w _ (no_cached_token_run a w H)).
  unfold mbind, M_bind.
  destruct (tokenInteractive E a w) as [[[[t|] [e|]]|msg|] w']; reflexivity.
Qed.

(** An error of the cache ends the call before anything else happens. *)
Lemma TokenSource_cache_error (E : Env) (a : Auth) (s : Storage) (w : World)
      (t : option Token) (e : error) :
  AuthStorage a = Some s ->
  Storage_Read s (files w) = (t, Some e) ->
  TokenSource E a w = (Returned (None, Some e), w).
Proof.
  intros Hs Hr. unfold TokenSource.
  rewrite (bind_returned _ _ w w (t, Some e)); [reflexivity|].
  rewrite tokenFromStorage_run, Hs, Hr. reflexivity.
Qed.

Lemma TokenSource_cached (E : Env) (a : Auth) (s : Storage) (w : World) (t : Token) :
  AuthStorage a = Some s ->
  Storage_Read s (files w) = (Some t, None) ->
  TokenSource E a w = (Returned (Config_TokenSource (AuthConfig a) t, None), w).
Proof.
  intros Hs Hr. unfold TokenSource.
  rewrite (bind_returned _ _ w w (Some t, None)); [reflexivity|].
  rewrite tokenFromStorage_run, Hs, Hr. reflexivity.
Qed.

(** Whatever [TokenSource] does, the file system stays as it was: the
    [Write] method of the storage is never called. *)
Lemma TokenSource_files (E : Env) (a : Auth) (w : World) :
  files (snd (TokenSource E a w)) = files w.
Proof.
  destruct (AuthStorage a) as [s|] eqn:Hs.
  - destruct (Storage_Read s (files w)) as [t [e|]] eqn:Hr.
    + rewrite (TokenSource_cache_error E a s w t e Hs Hr). reflexivity.
    + destruct t as [t|].
      * rewrite (TokenSource_cached E a s w t Hs Hr). reflexivity.
      * rewrite TokenSource_fallback
          by (unfold no_cached_token; rewrite Hs; exact Hr).
        pose proof (tokenInteractive_frame E a w) as [Hf _].
        destruct (tokenInteractive E a w) as [[[[t|] [e|]]|msg|] w']; exact Hf.
  - rewrite TokenSource_fallback by (unfold no_cached_token; rewrite Hs; exact I).
    pose proof (tokenInteractive_frame E a w) as [Hf _].
    destruct (tokenInteractive E a w) as [[[[t|] [e|]]|msg|] w']; exact Hf.
Qed.

(** C1 (the code departs from it): the run of the scenario of the
    specification.  The cache file is absent, the URL is printed, the
    browser comes back with the right state and the code ABC123, the
    exchange succeeds.  The call returns a token source over the new
    token, and the cache is as empty as before: the storage still
    reads "none". *)
Theorem interactive_token_not_persisted :
  let E := Scenario.env [EvRequest Scenario.req_code; EvSelect true] in
  let a := Scenario.auth E in
  let out := TokenSource E a Scenario.world0 in
  fileStore_Read E Scenario.cache_file (files Scenario.world0) = (None, None) /\
  fst out = Returned (Some (mkTokenSource (Some Scenario.cfg_loc)
                                           (Scenario.issued "ABC123")), None) /\
  exchanged (trace (snd out)) = ["ABC123"] /\
  files (snd out) = files Scenario.world0 /\
  fileStore_Read E Scenario.cache_file (files (snd out)) = (None, None).
Proof.
  vm_compute. repeat split; reflexivity.
Qed.

(** C7: without a presentation capability and without a cached token
    the call fails at once with "interactive authentication is
    unavailable"; the world is left as it was, so no socket has been
    bound and no entropy has been read. *)
Theorem interactive_unavailable (E : Env) (a : Auth) (w : World) :
  ShowURL a = None ->
  no_cached_token a w ->
  TokenSource E a w =
    (Returned (None, Some (errorString "interactive authentication is unavailable")), w) /\
  tokenInteractive E a w =
    (Returned (None, Some (errorString "interactive authentication is unavailable")), w) /\
  listened (trace (snd (TokenSource E a w))) = listened (trace w).
Proof.
  intros Hshow Hcache.
  assert (tokenInteractive E a w =
          (Returned (None, Some (errorString "interactive authentication is unavailable")), w))
    as Hti by (unfold tokenInteractive; rewrite Hshow; reflexivity).
  assert (TokenSource E a w =
          (Returned (None, Some (errorString "interactive authentication is unavailable")), w))
    as Hts by (rewrite TokenSource_fallback by exact Hcache; rewrite Hti; reflexivity).
  split; [exact Hts|]. split; [exact Hti|]. rewrite Hts. reflexivity.
Qed.

Lemma interactive_unavailable_witness :
  let E := Scenario.env [] in
  ShowURL (Scenario.auth_silent E) = None /\
  no_cached_token (Scenario.auth_silent E) Scenario.world0 /\
  TokenSource E (Scenario.auth_silent E) Scenario.world0 =
    (Returned (None, Some (errorString "interactive authentication is unavailable")),
     Scenario.world0).
Proof.
  cbv zeta. split; [reflexivity|]. split; [vm_compute; reflexivity|].
  apply (interactive_unavailable (Scenario.env [])
           (Scenario.auth_silent (Scenario.env [])) Scenario.world0).
  - reflexivity.
  - vm_compute; reflexivity.
Defined.

Lemma errors_Is_path_error (msg : string) (n : Errno) :
  errors_Is (wrapError msg (syscallErrno n)) ErrNotExist = true <-> n = ENOENT.
Proof.
  destruct n; cbn; split; intros H; try discriminate; reflexivity.
Qed.

(** C8: the read of the file store reports "none" without an error
    exactly when the backing file does not exist, that is when the error
    of [os.ReadFile] is [fs.ErrNotExist], which among the errors of the
    operating system is ENOENT and no other.  Every other error of the
    read (ENOTDIR, EACCES, EISDIR, EIO) comes back as it is, content
    that does not parse comes back as an error too, and an error of the
    cache ends the token acquisition with that error, the world
    untouched: no fallback to the interactive flow. *)
Theorem cache_read_faults (E : Env) (f : string) (fs : gmap string FileEntry) :
  let bs := fst (os_ReadFile E f fs) in
  let oserr := snd (os_ReadFile E f fs) in
  (fileStore_Read E f fs = (None, None) <->
   errors_Is_opt oserr ErrNotExist = true) /\
  (forall (msg : string) (n : Errno),
     oserr = Some (wrapError msg (syscallErrno n)) ->
     (fileStore_Read E f fs = (None, None) <-> n = ENOENT) /\
     (n <> ENOENT -> fileStore_Read E f fs = (None, oserr))) /\
  (forall e : error,
     oserr = Some e -> errors_Is e ErrNotExist = false ->
     fileStore_Read E f fs = (None, Some e)) /\
  (forall e : error,
     oserr = None -> json_Unmarshal E bs = inr e ->
     fileStore_Read E f fs = (None, Some (Errorf_w "unmarshaling auth config: " e))) /\
  (forall t : Token,
     oserr = None -> json_Unmarshal E bs = inl t ->
     fileStore_Read E f fs = (Some t, None)) /\
  (forall (a : Auth) (s : Storage) (w : World) (t : option Token) (e : error),
     AuthStorage a = Some s ->
     Storage_Read s (files w) = (t, Some e) ->
     TokenSource E a w = (Returned (None, Some e), w) /\
     shown_urls (trace (snd (TokenSource E a w))) = shown_urls (trace w) /\
     listened (trace (snd (TokenSource E a w))) = listened (trace w)).
Proof.
  cbv zeta. unfold fileStore_Read.
  destruct (os_ReadFile E f fs) as [bs oserr]. simpl fst. simpl snd.
  split; [|split; [|split; [|split; [|split]]]].
  - destruct oserr as [e|]; simpl.
    + destruct (errors_Is e ErrNotExist); split; intros H;
        try reflexivity; discriminate.
    + destruct (json_Unmarshal E bs); split; intros H; discriminate.
  - intros msg n ->. cbn [errors_Is_opt].
    pose proof (errors_Is_path_error msg n) as Hn.
    destruct (errors_Is (wrapError msg (syscallErrno n)) ErrNotExist).
    + split; [split; intros _; [apply Hn|]; reflexivity|].
      intros Hne. exfalso. apply Hne, Hn. reflexivity.
    + split; [|reflexivity]. split; intros H; [discriminate|].
      apply Hn in H. discriminate.
  - intros e -> He. simpl. rewrite He. reflexivity.
  - intros e -> Hj. simpl. rewrite Hj. reflexivity.
  - intros t -> Hj. simpl. rewrite Hj. reflexivity.
  - intros a s w t e Hs Hr.
    rewrite (TokenSource_cache_error E a s w t e Hs Hr). auto.
Qed.

Lemma cache_read_faults_witness :
  let E := Scenario.env [EvRequest Scenario.req_code; EvSelect true] in
  os_ReadFile E Scenario.cache_file (files Scenario.world_corrupt) =
    ([Byte.x7b], None) /\
  json_Unmarshal E [Byte.x7b] = inr (errorString "unexpected end of JSON input") /\
  TokenSource E (Scenario.auth E) Scenario.world_corrupt =
    (Returned (None, Some (wrapError
        "unmarshaling auth config: unexpected end of JSON input"
        (errorString "unexpected end of JSON input"))),
     Scenario.world_corrupt).
Proof.
  cbv zeta. split; [vm_compute; reflexivity|]. split; [reflexivity|].
  pose proof (cache_read_faults
    (Scenario.env [EvRequest Scenario.req_code; EvSelect true])
    Scenario.cache_file (files Scenario.world_corrupt))
    as (_ & _ & _ & Hbad & _ & Hts).
  specialize (Hbad (errorString "unexpected end of JSON input")
                ltac:(vm_compute; reflexivity) ltac:(vm_compute; reflexivity)).
  destruct (Hts (Scenario.auth (Scenario.env [EvRequest Scenario.req_code; EvSelect true]))
                (FileStore (Scenario.env [EvRequest Scenario.req_code; EvSelect true])
                           Scenario.cache_file)
                Scenario.world_corrupt None
                (Errorf_w "unmarshaling auth config: "
                          (errorString "unexpected end of JSON input"))
                eq_refl Hbad) as [H _].
  exact H.
Defined.

(** The cache file under a path whose parent is a regular file: the
    operating system answers ENOTDIR, and the read reports it. *)
Example blocked_parent_is_an_error :
  let E := Scenario.env [] in
  let fs : gmap string FileEntry := {[ "blocker" := Regular [] ]} in
  fileStore_Read E "blocker/oauth.json" fs =
    (None, Some (wrapError "open blocker/oauth.json: not a directory"
                           (syscallErrno ENOTDIR))).
Proof. vm_compute. reflexivity. Qed.

(** C9: a run of the interactive flow writes to the heap at most once,
    to the RedirectURL field of the configuration the caller shares with
    it.  Every other object and every other field keeps its value; once
    the listener is bound the field holds "http://", the bound address
    and the secret path, and it still does when the run is over,
    however it ends. *)
Theorem redirect_url_rewritten_in_place (E : Env) (a : Auth) (w : World) :
  let w' := snd (tokenInteractive E a w) in
  (forall l' : loc, Some l' <> AuthConfig a -> heap w' !! l' = heap w !! l') /\
  (forall (l : loc) (c0 : Config),
     AuthConfig a = Some l -> heap w !! l = Some c0 ->
     exists c', heap w' !! l = Some c' /\
       ClientID c' = ClientID c0 /\ ClientSecret c' = ClientSecret c0 /\
       ConfigEndpoint c' = ConfigEndpoint c0 /\ Scopes c' = Scopes c0) /\
  (forall (show : string -> option error) (addr : string) (l : loc) (c0 : Config),
     ShowURL a = Some show ->
     (8 <= List.length (entropy w))%nat ->
     net_Listen E = inl addr ->
     AuthConfig a = Some l ->
     heap w !! l = Some c0 ->
     exists c', heap w' !! l = Some c' /\
       RedirectURL c' =
         "http://" +:+ addr +:+ "/" +:+ hex_EncodeToString (take 8 (entropy w))) /\
  (ShowURL a = None \/ (List.length (entropy w) < 8)%nat \/
   (exists e, net_Listen E = inr e) ->
   heap w' = heap w).
Proof.
  cbv zeta.
  pose proof (tokenInteractive_frame E a w) as [_ Hheap]. cbv zeta in Hheap.
  split; [|split; [|split]].
  - intros l' Hl'.
    destruct Hheap as [->|(show & addr & l & c0 & _ & _ & _ & Hcfg & _ & ->)];
      [reflexivity|].
    apply lookup_insert_ne. congruence.
  - intros l c0 Hcfg Hc0.
    destruct Hheap as [->|(show & addr & l1 & c1 & _ & _ & _ & Hcfg1 & Hc1 & ->)].
    + exists c0. auto.
    + assert (l1 = l) as -> by congruence.
      assert (c1 = c0) as -> by congruence.
      exists (run_config addr w c0). split; [apply lookup_insert_eq|].
      repeat split; reflexivity.
  - intros show addr l c0 Hshow Hent Hln Hcfg Hc0.
    exists (run_config addr w c0). split; [|reflexivity].
    rewrite (tokenInteractive_heap_bound E a w show addr l c0) by assumption.
    apply lookup_insert_eq.
  - intros Hearly.
    destruct Hheap as [H|(show & addr & l & c0 & Hshow & Hent & Hln & _)];
      [exact H|].
    exfalso. destruct Hearly as [H|[H|[e H]]]; [congruence|lia|congruence].
Qed.

Lemma redirect_url_rewritten_in_place_witness :
  let E := Scenario.env [EvCtxDone; EvSelect false] in
  let out := tokenInteractive E (Scenario.auth E) Scenario.world0 in
  fst out = Returned (None, Some (errorString "context canceled")) /\
  RedirectURL Scenario.cfg0 = "" /\
  exists c', heap (snd out) !! Scenario.cfg_loc = Some c' /\
    RedirectURL c' = "http://127.0.0.1:4242/0101010101010101".
Proof.
  cbv zeta. split; [vm_compute; reflexivity|]. split; [reflexivity|].
  pose proof (redirect_url_rewritten_in_place
    (Scenario.env [EvCtxDone; EvSelect false])
    (Scenario.auth (Scenario.env [EvCtxDone; EvSelect false]))
    Scenario.world0) as (_ & _ & H & _).
  exact (H PrintURL "127.0.0.1:4242" Scenario.cfg_loc Scenario.cfg0
           eq_refl ltac:(vm_compute; lia) eq_refl eq_refl
           ltac:(vm_compute; reflexivity)).
Defined.

(** C10: when [TokenSource] returns, exactly one of the token source and
    the error is non-nil; in particular an interactive flow that hands
    back neither a token nor an error is turned into an explicit
    error. *)
Theorem TokenSource_never_both_nil (E : Env) (a : Auth) (w : World) :
  (forall (ts : option oauth2_TokenSource) (e : option error) (w' : World),
     TokenSource E a w = (Returned (ts, e), w') ->
     (is_Some ts /\ e = None) \/ (ts = None /\ is_Some e)) /\
  (forall w' : World,
     no_cached_token a w ->
     tokenInteractive E a w = (Returned (None, None), w') ->
     TokenSource E a w =
       (Returned (None, Some (errorString
          "interactive auth returned no error but also no token")), w')).
Proof.
  assert (no_cached_token a w ->
          forall ts e w', TokenSource E a w = (Returned (ts, e), w') ->
          (is_Some ts /\ e = None) \/ (ts = None /\ is_Some e)) as Hfall.
  { intros Hc ts e w'. rewrite TokenSource_fallback by exact Hc.
    destruct (tokenInteractive E a w) as [[[[t|] [e'|]]|msg|] w1];
      intros [= <- <- <-] || (intros ?; discriminate); eauto. }
  split.
  - destruct (AuthStorage a) as [s|] eqn:Hs.
    + destruct (Storage_Read s (files w)) as [t [e0|]] eqn:Hr.
      * intros ts e w'. rewrite (TokenSource_cache_error E a s w t e0 Hs Hr).
        intros [= <- <- <-]. eauto.
      * destruct t as [t|].
        -- intros ts e w'. rewrite (TokenSource_cached E a s w t Hs Hr).
           intros [= <- <- <-]. left. unfold Config_TokenSource. eauto.
        -- apply Hfall. unfold no_cached_token. rewrite Hs. exact Hr.
    + apply Hfall. unfold no_cached_token. rewrite Hs. exact I.
  - intros w' Hc Hti. rewrite TokenSource_fallback by exact Hc.
    rewrite Hti. reflexivity.
Qed.

Lemma TokenSource_never_both_nil_witness :
  let E := Scenario.env_with Scenario.silent_Exchange (inl "127.0.0.1:4242")
             [EvRequest Scenario.req_code; EvSelect true] in
  no_cached_token (Scenario.auth E) Scenario.world0 /\
  fst (tokenInteractive E (Scenario.auth E) Scenario.world0) = Returned (None, None) /\
  fst (TokenSource E (Scenario.auth E) Scenario.world0) =
    Returned (None, Some (errorString
       "interactive auth returned no error but also no token")).
Proof.
  cbv zeta. split; [vm_compute; reflexivity|]. split; [vm_compute; reflexivity|].
  pose proof (TokenSource_never_both_nil
    (Scenario.env_with Scenario.silent_Exchange (inl "127.0.0.1:4242")
       [EvRequest Scenario.req_code; EvSelect true])
    (Scenario.auth
       (Scenario.env_with Scenario.silent_Exchange (inl "127.0.0.1:4242")
          [EvRequest Scenario.req_code; EvSelect true]))
    Scenario.world0) as [_ H].
  rewrite (H (snd (tokenInteractive
                (Scenario.env_with Scenario.silent_Exchange (inl "127.0.0.1:4242")
                   [EvRequest Scenario.req_code; EvSelect true])
                (Scenario.auth
                   (Scenario.env_with Scenario.silent_Exchange (inl "127.0.0.1:4242")
                      [EvRequest Scenario.req_code; EvSelect true]))
                Scenario.world0))
             ltac:(vm_compute; reflexivity) ltac:(vm_compute; reflexivity)).
  reflexivity.
Defined.

(** * Further properties of the package *)

(** ** Nonces *)

Lemma hex_byte_decode (b : Byte.byte) :
  Byte.of_N (hex_value (hexdigit (N.shiftr (Byte.to_N b) 4)) * 16 +
             hex_value (hexdigit (N.land (Byte.to_N b) 15))) = Some b.
Proof. destruct b; vm_compute; reflexivity. Qed.

Lemma hex_byte_digits (b : Byte.byte) :
  is_hex_digit (hexdigit (N.shiftr (Byte.to_N b) 4)) = true /\
  is_hex_digit (hexdigit (N.land (Byte.to_N b) 15)) = true.
Proof. destruct b; vm_compute; split; reflexivity. Qed.

Lemma hex_EncodeToString_inj (bs bs' : list Byte.byte) :
  hex_EncodeToString bs = hex_EncodeToString bs' -> bs = bs'.
Proof.
  revert bs'. induction bs as [|b bs IH]; intros [|b' bs']; simpl;
    try discriminate; [reflexivity|].
  intros [= H1 H2 H3].
  pose proof (hex_byte_decode b) as Hb.
  pose proof (hex_byte_decode b') as Hb'.
  rewrite H1, H2 in Hb. rewrite Hb in Hb'.
  injection Hb' as ->. f_equal. apply IH, H3.
Qed.

Lemma hex_EncodeToString_digits (bs : list Byte.byte) :
  string_forall is_hex_digit (hex_EncodeToString bs) = true.
Proof.
  induction bs as [|b bs IH]; simpl; [reflexivity|].
  destruct (hex_byte_digits b) as [-> ->]. exact IH.
Qed.

(** X1: a nonce that [randhex] returns is a string of sixteen lower-case
    hexadecimal digits; it uses up exactly the eight bytes of entropy it
    encodes, and two calls return the same nonce only when they read the
    same eight bytes. *)
Theorem randhex_nonce (w w' : World) (h : string) :
  randhex w = (Returned h, w') ->
  String.length h = 16%nat /\
  string_forall is_hex_digit h = true /\
  entropy w' = drop 8 (entropy w) /\
  heap w' = heap w /\ files w' = files w /\ trace w' = trace w /\
  (forall (v v' : World) (k : string),
     randhex v = (Returned k, v') -> k = h ->
     take 8 (entropy v) = take 8 (entropy w)).
Proof.
  intros H. destruct (randhex_returns w h w' H) as (Hlen & -> & ->).
  split; [exact Hlen|]. split; [apply hex_EncodeToString_digits|].
  repeat (split; [reflexivity|]).
  intros v v' k Hv Hk. destruct (randhex_returns v k v' Hv) as (_ & -> & _).
  apply hex_EncodeToString_inj, Hk.
Qed.

Lemma randhex_nonce_witness :
  randhex Scenario.world0 =
    (Returned "0101010101010101",
     set_entropy (repeat Byte.xab 8) Scenario.world0) /\
  string_forall is_hex_digit "0101010101010101" = true.
Proof.
  split; [vm_compute; reflexivity|].
  apply (randhex_nonce Scenario.world0
           (set_entropy (repeat Byte.xab 8) Scenario.world0) "0101010101010101").
  vm_compute; reflexivity.
Defined.

(** X2: [randhex] panics with "ran out of random" exactly when fewer
    than eight bytes of entropy are left; the failed read has taken the
    bytes that were left, so none remain, and nothing else has
    changed. *)
Theorem randhex_exhausted (w : World) :
  ((List.length (entropy w) < 8)%nat <->
   exists w', randhex w = (Panicked "ran out of random", w')) /\
  (forall (msg : string) (w' : World),
     randhex w = (Panicked msg, w') ->
     msg = "ran out of random" /\ entropy w' = [] /\
     heap w' = heap w /\ files w' = files w /\ trace w' = trace w).
Proof.
  destruct (decide (List.length (entropy w) < 8)%nat) as [Hl|Hl].
  - split.
    + split; [|intros _; exact Hl]. intros _. eexists. apply randhex_short, Hl.
    + intros msg w'. rewrite randhex_short by exact Hl.
      intros [= <- <-]. split; [reflexivity|]. split; [|auto].
      apply drop_ge. lia.
  - rewrite randhex_ok by lia. split.
    + split; [intros H; contradiction|]. intros [w' H]. discriminate.
    + intros msg w' H. discriminate.
Qed.

(** ** The callback endpoint as a whole *)

(** X3: how the handler answers.  The status is 404 exactly for a path
    other than the secret one, 302 exactly for the secret path without a
    non-empty state, 412 exactly for the secret path with a non-empty
    state that is not the expected one, and 200 exactly for the secret
    path with the expected state, whatever the other parameters say.
    Only a 200 can put a value into the channel, and only into an empty
    one. *)
Theorem handler_status (path state startURL : string) (r : Request) (ch : chan) :
  state <> "" ->
  let out := handler path state startURL r ch in
  let st := Values_Get (Query r) "state" in
  (Response_status (fst out) = StatusNotFound <-> Path r <> path) /\
  (Response_status (fst out) = StatusFound <-> Path r = path /\ st = "") /\
  (Response_status (fst out) = StatusPreconditionFailed <->
     Path r = path /\ st <> "" /\ st <> state) /\
  (Response_status (fst out) = StatusOK <-> Path r = path /\ st = state) /\
  (snd out = ch \/
   (Response_status (fst out) = StatusOK /\ ch = None /\
    snd out = Some (callback_resp (Query r)))).
Proof.
  intros Hst. cbv zeta. unfold handler.
  destruct (decide (Path r <> path)) as [Hp|Hp].
  { simpl. unfold StatusNotFound, StatusFound, StatusPreconditionFailed, StatusOK.
    repeat split; try tauto; try discriminate; intros; tauto. }
  apply dec_stable in Hp.
  destruct (decide (Values_Get (Query r) "state" = "")) as [He|He].
  { simpl. unfold StatusNotFound, StatusFound, StatusPreconditionFailed, StatusOK.
    repeat split; try tauto; try discriminate; try congruence.
    all: intros; try tauto; try congruence.
    destruct H as [_ H]. congruence. }
  destruct (decide (Values_Get (Query r) "state" <> state)) as [Hs|Hs].
  { simpl. unfold StatusNotFound, StatusFound, StatusPreconditionFailed, StatusOK.
    repeat split; try tauto; try discriminate; try congruence.
    all: intros; try tauto; try congruence. }
  apply dec_stable in Hs.
  simpl. unfold StatusNotFound, StatusFound, StatusPreconditionFailed, StatusOK.
  split; [split; [discriminate | tauto]|].
  split; [split; [discriminate | tauto]|].
  split; [split; [discriminate | tauto]|].
  split; [tauto|].
  destruct ch as [v|]; simpl; [left; reflexivity|right; auto].
Qed.

Lemma handler_status_witness :
  Scenario.state0 <> "" /\
  Response_status
    (fst (handler Scenario.path0 Scenario.state0 Scenario.start0
            (mkRequest "/favicon.ico" ∅) None)) = StatusNotFound /\
  Response_status
    (fst (handler Scenario.path0 Scenario.state0 Scenario.start0
            Scenario.req_error None)) = StatusOK.
Proof.
  split; [discriminate|].
  split.
  - apply (handler_status Scenario.path0 Scenario.state0 Scenario.start0
             (mkRequest "/favicon.ico" ∅) None); [discriminate|].
    vm_compute; discriminate.
  - apply (handler_status Scenario.path0 Scenario.state0 Scenario.start0
             Scenario.req_error None); [discriminate|].
    vm_compute; split; reflexivity.
Defined.

(** X4: requests for any path other than the secret one change nothing
    but the list of responses, whatever their parameters: each is
    answered with 404, and the channel, the orchestrator and what has
    been delivered stay as they are, in whatever state the flow is. *)
Theorem foreign_paths_ignored (path state startURL : string) (rs : list Request)
    (s : FlowState) :
  Forall (fun r => Path r <> path) rs ->
  flow_run path state startURL s (map EvRequest rs) =
    mkFlow (fl_ch s) (fl_done s) (fl_orch s) (fl_delivered s)
           (fl_responses s ++ map (fun _ => http_Error "not found" StatusNotFound) rs).
Proof.
  revert s. induction rs as [|r rs IH]; intros s Hrs; simpl.
  - rewrite app_nil_r. destruct s; reflexivity.
  - inversion Hrs as [|? ? Hp Hrest]; subst.
    unfold handler at 1.
    destruct (decide (Path r <> path)) as [_|?]; [|contradiction].
    rewrite IH by exact Hrest. simpl. rewrite <- app_assoc. reflexivity.
Qed.

Lemma foreign_paths_ignored_witness :
  flow_run Scenario.path0 Scenario.state0 Scenario.start0 flow_init
           (map EvRequest
              [mkRequest "/0101010101010102"
                 (Scenario.query [("state", Scenario.state0); ("code", "ABC123")]);
               mkRequest "/favicon.ico" ∅]) =
    mkFlow None false Waiting []
           [http_Error "not found" StatusNotFound;
            http_Error "not found" StatusNotFound].
Proof.
  apply (foreign_paths_ignored Scenario.path0 Scenario.state0 Scenario.start0
           [mkRequest "/0101010101010102"
              (Scenario.query [("state", Scenario.state0); ("code", "ABC123")]);
            mkRequest "/favicon.ico" ∅]
           flow_init).
  repeat constructor; vm_compute; discriminate.
Defined.

(** ** Offers, cancellation and silence *)

(** The end of the serve loop offers its error like a request offers
    its result. *)
Lemma serve_exit_wins (path state startURL : string)
      (pre : list Event) (e : error) (post1 : list Event) (b : bool)
      (post2 : list Event) :
  forallb (quiet path state) pre = true ->
  forallb no_cancel post1 = true ->
  let s := flow_run path state startURL flow_init
             (pre ++ EvServeExit e :: post1 ++ EvSelect b :: post2) in
  fl_orch s = GotResp (mkResp "" (Some e)) /\
  fl_delivered s = [mkResp "" (Some e)].
Proof.
  intros Hpre Hpost1. cbv zeta.
  rewrite flow_run_app, flow_run_cons, flow_run_app, flow_run_cons.
  destruct (quiet_run path state startURL pre flow_init Hpre eq_refl eq_refl eq_refl)
    as (Hch & Hd & Ho & Hl).
  set (s0 := flow_run path state startURL flow_init pre) in *.
  assert (pending (mkResp "" (Some e))
            (flow_step path state startURL s0 (EvServeExit e))) as Hp.
  { unfold pending. simpl. rewrite Hch. simpl. auto. }
  apply (pending_run path state startURL _ post1) in Hp; [|exact Hpost1].
  destruct (pending_select path state startURL _ _ b Hp) as [H1 H2].
  destruct (settled_run path state startURL post2 _ ltac:(rewrite H1; discriminate))
    as [H3 H4].
  split; congruence.
Qed.

(** Silent events after a cancellation leave the channel empty; the
    orchestrator either still waits or has seen the cancellation. *)
Lemma cancelled_run (path state startURL : string) (evs : list Event)
      (s : FlowState) :
  forallb (silent path state) evs = true ->
  fl_ch s = None -> fl_done s = true ->
  (fl_orch s = Waiting \/ fl_orch s = GotDone) ->
  let s' := flow_run path state startURL s evs in
  fl_ch s' = None /\ fl_done s' = true /\
  (fl_orch s' = Waiting \/ fl_orch s' = GotDone) /\
  fl_delivered s' = fl_delivered s.
Proof.
  revert s. induction evs as [|ev evs IH]; intros s Hq Hch Hd Ho; simpl.
  - auto.
  - simpl in Hq. apply andb_true_iff in Hq as [Hev Hq].
    destruct ev as [r| e | | b]; simpl in Hev; try discriminate.
    + apply negb_true_iff in Hev.
      pose proof (handler_not_concluding path state startURL r (fl_ch s) Hev) as Hh.
      simpl. destruct (handler path state startURL r (fl_ch s)) as [x ch'].
      simpl in Hh. subst ch'.
      exact (IH (mkFlow (fl_ch s) (fl_done s) (fl_orch s) (fl_delivered s)
                        (fl_responses s ++ [x])) Hq Hch Hd Ho).
    + exact (IH (mkFlow (fl_ch s) true (fl_orch s) (fl_delivered s)
                        (fl_responses s)) Hq Hch eq_refl Ho).
    + simpl. unfold orch_select.
      destruct Ho as [Ho|Ho]; rewrite Ho.
      * rewrite Hch, Hd. simpl.
        apply (IH (mkFlow None true GotDone (fl_delivered s) (fl_responses s)));
          simpl; auto.
      * apply IH; auto.
Qed.

Lemma cancellation_wins (path state startURL : string)
      (pre mid : list Event) (b : bool) (post : list Event) :
  forallb (quiet path state) pre = true ->
  forallb (silent path state) mid = true ->
  let s := flow_run path state startURL flow_init
             (pre ++ EvCtxDone :: mid ++ EvSelect b :: post) in
  fl_orch s = GotDone /\ fl_delivered s = [].
Proof.
  intros Hpre Hmid. cbv zeta.
  rewrite flow_run_app, flow_run_cons, flow_run_app, flow_run_cons.
  destruct (quiet_run path state startURL pre flow_init Hpre eq_refl eq_refl eq_refl)
    as (Hch & Hd & Ho & Hl).
  set (s0 := flow_run path state startURL flow_init pre) in *.
  destruct (cancelled_run path state startURL mid
              (flow_step path state startURL s0 EvCtxDone) Hmid Hch eq_refl
              (or_introl Ho)) as (Hch1 & Hd1 & Ho1 & Hl1).
  set (s1 := flow_run path state startURL _ mid) in *.
  assert (fl_orch (flow_step path state startURL s1 (EvSelect b)) = GotDone /\
          fl_delivered (flow_step path state startURL s1 (EvSelect b)) = [])
    as [H1 H2].
  { simpl. unfold orch_select. destruct Ho1 as [Ho1|Ho1]; rewrite Ho1.
    - rewrite Hch1, Hd1. simpl. split; [reflexivity|]. rewrite Hl1. exact Hl.
    - split; [exact Ho1|]. rewrite Hl1. exact Hl. }
  destruct (settled_run path state startURL post _ ltac:(rewrite H1; discriminate))
    as [H3 H4].
  split; congruence.
Qed.

(** A schedule of quiet events leaves the orchestrator waiting. *)
Lemma quiet_schedule_waits (path state startURL : string) (evs : list Event) :
  forallb (quiet path state) evs = true ->
  fl_orch (flow_run path state startURL flow_init evs) = Waiting /\
  fl_delivered (flow_run path state startURL flow_init evs) = [].
Proof.
  intros H.
  destruct (quiet_run path state startURL evs flow_init H eq_refl eq_refl eq_refl)
    as (_ & _ & Ho & Hl).
  split; assumption.
Qed.

Lemma offered_by_app_l (path state : string) (evs more : list Event) (v : resp) :
  offered_by path state evs v -> offered_by path state (evs ++ more) v.
Proof.
  intros [(r & Hin & Hc & Hv)|(e & Hin & Hv)]; [left|right].
  - exists r. split; [apply in_or_app; left; exact Hin|auto].
  - exists e. split; [apply in_or_app; left; exact Hin|auto].
Qed.

(** Whatever sits in the channel or has reached the orchestrator was
    offered by an event of the schedule. *)
Lemma flow_values_offered (path state startURL : string) (evs : list Event) :
  let s := flow_run path state startURL flow_init evs in
  (forall v, fl_ch s = Some v -> offered_by path state evs v) /\
  (forall v, fl_orch s = GotResp v -> offered_by path state evs v).
Proof.
  cbv zeta. induction evs as [|ev evs [IHch IHo]] using rev_ind.
  - split; intros v H; discriminate.
  - rewrite flow_run_app. simpl.
    set (s := flow_run path state startURL flow_init evs) in *.
    destruct ev as [r| e | | b]; simpl.
    + destruct (handler path state startURL r (fl_ch s)) as [x ch'] eqn:Hh. simpl.
      split; [|intros v Hv; apply offered_by_app_l, IHo, Hv].
      intros v Hv.
      destruct (concluding path state r) eqn:Hc.
      * destruct (fl_ch s) as [v0|] eqn:Hch.
        -- assert (ch' = Some v0) as ->.
           { revert Hh. unfold handler.
             repeat (destruct (decide _)); intros [= _ <-]; reflexivity. }
           apply offered_by_app_l, IHch. congruence.
        -- left. exists r. split; [apply in_or_app; right; left; reflexivity|].
           split; [exact Hc|].
           revert Hh. unfold handler.
           repeat (destruct (decide _)); intros [= _ <-]; cbn in *;
             congruence.
      * pose proof (handler_not_concluding path state startURL r (fl_ch s) Hc) as Hn.
        rewrite Hh in Hn. simpl in Hn. rewrite Hn in Hv.
        apply offered_by_app_l, IHch, Hv.
    + split; [|intros v Hv; apply offered_by_app_l, IHo, Hv].
      intros v Hv. destruct (fl_ch s) as [v0|] eqn:Hch; simpl in Hv.
      * apply offered_by_app_l, IHch. congruence.
      * right. exists e. split; [apply in_or_app; right; left; reflexivity|].
        congruence.
    + split; intros v Hv; apply offered_by_app_l; auto.
    + unfold orch_select.
      destruct (fl_orch s) eqn:Ho.
      * destruct (fl_ch s) as [v0|] eqn:Hch, (fl_done s), b; simpl;
          split; intros v Hv; try discriminate;
          apply offered_by_app_l;
          first [ apply IHch; congruence | apply IHo; congruence ].
      * split; intros v Hv; apply offered_by_app_l; auto.
        apply IHo. congruence.
      * split; intros v Hv; apply offered_by_app_l; auto.
        apply IHo. congruence.
Qed.

(** ** Every way a run of the orchestrator can go *)

Create Rewrite HintDb rawtrace.
#[local] Hint Rewrite trace_log trace_serve trace_set_heap trace_set_entropy : rawtrace.

Ltac raw_trace :=
  cbv beta iota zeta delta [fst snd run_teardown run_presented];
  autorewrite with rawtrace;
  rewrite <- ?app_assoc; simpl app.

(** The trace of a run that has bound its listener. *)
Lemma run_result_trace (E : Env) (show : string -> option error)
      (addr : string) (l : loc) (c0 : Config) (w : World) :
  let out := run_result E show addr l c0 w in
  let url := run_redirect addr w in
  (fst out = Blocked /\ show url = None /\
   fl_orch (run_flow E addr w c0) = Waiting /\
   trace (snd out) = trace w ++ [EffListen addr; EffServe; EffShowURL url]) \/
  (exists e, fst out = Returned (None, Some e) /\
     trace (snd out) =
       trace w ++ [EffListen addr; EffServe; EffShowURL url; EffShutdown; EffClose]) \/
  (exists rsp, show url = None /\
     fl_orch (run_flow E addr w c0) = GotResp rsp /\ err rsp = None /\
     fst out = Returned (Exchange E (run_config addr w c0) (code rsp)) /\
     trace (snd out) =
       trace w ++ [EffListen addr; EffServe; EffShowURL url;
                   EffExchange (code rsp); EffShutdown; EffClose]).
Proof.
  cbv zeta. unfold run_result.
  destruct (show (run_redirect addr w)) as [e|] eqn:Hshow.
  { right; left. exists e. split; [reflexivity|]. raw_trace. reflexivity. }
  destruct (fl_orch (run_flow E addr w c0)) as [|rsp|] eqn:Ho.
  - left. repeat (split; [reflexivity|]). raw_trace. reflexivity.
  - destruct (err rsp) as [e|] eqn:He.
    + right; left. exists e. split; [reflexivity|]. raw_trace. reflexivity.
    + right; right. exists rsp. repeat (split; [reflexivity|]).
      split; [exact He|]. split; [reflexivity|]. raw_trace. reflexivity.
  - right; left. exists (ctx_Err E). split; [reflexivity|]. raw_trace. reflexivity.
Qed.

(** A run stops before the listener, aborts right after binding it, or
    goes on to present the URL. *)
Lemma tokenInteractive_cases (E : Env) (a : Auth) (w : World) :
  let out := tokenInteractive E a w in
  (trace (snd out) = trace w /\ fst out <> Blocked) \/
  (exists addr msg, fst out = Panicked msg /\
     trace (snd out) = trace w ++ [EffListen addr; EffClose]) \/
  (exists show addr l c0,
     ShowURL a = Some show /\ (16 <= List.length (entropy w))%nat /\
     net_Listen E = inl addr /\ AuthConfig a = Some l /\ heap w !! l = Some c0 /\
     out = run_result E show addr l c0 w).
Proof.
  cbv zeta.
  destruct (ShowURL a) as [show|] eqn:Hshow.
  2:{ left. unfold tokenInteractive. rewrite Hshow. simpl. split; [reflexivity|discriminate]. }
  destruct (decide (8 <= List.length (entropy w))%nat) as [H8|H8].
  2:{ left. unfold tokenInteractive. rewrite Hshow.
      rewrite (bind_panicked _ _ w _ _ (randhex_short w ltac:(lia))).
      simpl. split; [reflexivity|discriminate]. }
  destruct (net_Listen E) as [addr|e] eqn:Hln.
  2:{ left. unfold tokenInteractive. rewrite Hshow, Hln.
      rewrite bind_randhex by lia. simpl. split; [reflexivity|discriminate]. }
  destruct (AuthConfig a) as [l|] eqn:Hcfg.
  2:{ right; left. exists addr, nil_dereference.
      rewrite (tokenInteractive_nil_config E a w show addr) by auto.
      split; [reflexivity|]. simpl. rewrite <- app_assoc. reflexivity. }
  destruct (heap w !! l) as [c0|] eqn:Hc0.
  2:{ right; left. exists addr, nil_dereference.
      rewrite (tokenInteractive_nil_config E a w show addr) by eauto.
      split; [reflexivity|]. simpl. rewrite <- app_assoc. reflexivity. }
  destruct (decide (16 <= List.length (entropy w))%nat) as [H16|H16].
  - right; right. exists show, addr, l, c0.
    repeat (split; [first [assumption | reflexivity]|]).
    apply tokenInteractive_bound; assumption.
  - right; left. exists addr, "ran out of random".
    rewrite (tokenInteractive_state_panic E a w show addr l c0)
      by (try assumption; lia).
    split; [reflexivity|]. simpl. rewrite <- app_assoc. reflexivity.
Qed.

(** X5: what a run of [tokenInteractive] adds to the trace is one of
    five sequences: nothing; listen, close (a panic before the server is
    started); listen, serve, present (exactly when the run blocks);
    listen, serve, present, shutdown, close; or the same with one
    exchange before the shutdown.  So a run binds at most one listener,
    presents at most one URL and exchanges at most one code; whenever it
    returns or panics after binding the listener it has closed it, and
    when the server had been started it was shut down just before. *)
Theorem run_effects_shape (E : Env) (a : Auth) (w : World) :
  let out := tokenInteractive E a w in
  exists new : list Effect,
    trace (snd out) = trace w ++ new /\
    run_effects new /\
    (fst out = Blocked <->
     exists addr url, new = [EffListen addr; EffServe; EffShowURL url]) /\
    (fst out <> Blocked ->
     new = [] \/ exists addr mid, new = EffListen addr :: mid ++ [EffClose]) /\
    (fst out <> Blocked -> In EffServe new ->
     exists front, new = front ++ [EffShutdown; EffClose]).
Proof.
  cbv zeta.
  destruct (tokenInteractive_cases E a w)
    as [[Ht Hnb]|[(addr & msg & Ho & Ht)|(show & addr & l & c0 & _ & _ & _ & _ & _ & Hrun)]].
  - exists []. rewrite app_nil_r. split; [exact Ht|]. split; [constructor|].
    split; [split; [contradiction|intros (? & ? & ?); discriminate]|].
    split; [auto|]. intros _ [].
  - exists [EffListen addr; EffClose]. split; [exact Ht|]. split; [constructor|].
    rewrite Ho.
    split; [split; [discriminate|intros (? & ? & ?); discriminate]|].
    split; [intros _; right; exists addr, []; reflexivity|].
    intros _ [H|[H|[]]]; discriminate.
  - rewrite Hrun.
    destruct (run_result_trace E show addr l c0 w)
      as [(Ho & _ & _ & Ht)|[(e & Ho & Ht)|(rsp & _ & _ & _ & Ho & Ht)]].
    + eexists. split; [exact Ht|]. split; [constructor|].
      split; [split; [eauto|intros _; exact Ho]|].
      split; intros H; contradiction.
    + eexists. split; [exact Ht|]. split; [constructor|].
      rewrite Ho.
      split; [split; [discriminate|intros (? & ? & ?); discriminate]|].
      split.
      * intros _. right.
        exists addr, [EffServe; EffShowURL (run_redirect addr w); EffShutdown].
        reflexivity.
      * intros _ _.
        exists [EffListen addr; EffServe; EffShowURL (run_redirect addr w)].
        reflexivity.
    + eexists. split; [exact Ht|]. split; [constructor|].
      rewrite Ho.
      split; [split; [discriminate|intros (? & ? & ?); discriminate]|].
      split.
      * intros _. right.
        exists addr, [EffServe; EffShowURL (run_redirect addr w);
                      EffExchange (code rsp); EffShutdown].
        reflexivity.
      * intros _ _.
        exists [EffListen addr; EffServe; EffShowURL (run_redirect addr w);
                EffExchange (code rsp)].
        reflexivity.
Qed.

Lemma exchanged_app (t1 t2 : list Effect) :
  exchanged (t1 ++ t2) = exchanged t1 ++ exchanged t2.
Proof. unfold exchanged. apply flat_map_app. Qed.

(** X6: a code is exchanged only if a request of the schedule brought
    it on the secret path with the expected state and without an error
    parameter; codes of requests with a wrong path or state are never
    exchanged. *)
Theorem exchange_needs_valid_state (E : Env) (a : Auth) (w : World) (c : string) :
  In c (exchanged (trace (snd (tokenInteractive E a w)))) ->
  In c (exchanged (trace w)) \/
  exists r : Request,
    In (EvRequest r) (schedule E) /\
    Path r = run_path w /\
    Values_Get (Query r) "state" = run_state w /\
    Values_Get (Query r) "error" = "" /\
    Values_Get (Query r) "code" = c /\ c <> "".
Proof.
  destruct (tokenInteractive_cases E a w)
    as [[Ht _]|[(addr & msg & _ & Ht)|(show & addr & l & c0 & _ & _ & _ & _ & _ & Hrun)]].
  - rewrite Ht. auto.
  - rewrite Ht, exchanged_app. simpl. rewrite app_nil_r. auto.
  - rewrite Hrun.
    destruct (run_result_trace E show addr l c0 w)
      as [(_ & _ & _ & Ht)|[(e & _ & Ht)|(rsp & _ & Ho & He & _ & Ht)]];
      rewrite Ht, exchanged_app; simpl; rewrite ?app_nil_r; auto.
    intros Hin. apply in_app_or in Hin as [Hin|[<-|[]]]; [auto|].
    right.
    destruct (flow_values_offered (run_path w) (run_state w)
                (run_startURL E addr w c0) (schedule E)) as [_ Hoff].
    specialize (Hoff rsp Ho).
    destruct Hoff as [(r & Hin & Hc & Hv)|(e & _ & Hv)].
    2:{ rewrite Hv in He. discriminate. }
    exists r. split; [exact Hin|].
    apply andb_true_iff in Hc as [Hp Hs].
    apply bool_decide_eq_true in Hp. apply bool_decide_eq_true in Hs.
    split; [exact Hp|]. split; [exact Hs|].
    subst rsp. unfold callback_resp in *.
    destruct (decide (Values_Get (Query r) "error" <> "")) as [?|Hne];
      [discriminate|].
    apply dec_stable in Hne.
    destruct (decide (Values_Get (Query r) "code" <> "")) as [Hcode|?];
      [|discriminate].
    simpl. auto.
Qed.

Lemma exchange_needs_valid_state_witness :
  let E := Scenario.env [EvRequest Scenario.req_forged; EvRequest Scenario.req_code;
                         EvSelect true] in
  In "ABC123"
     (exchanged (trace (snd (tokenInteractive E (Scenario.auth E) Scenario.world0)))) /\
  exists r : Request,
    In (EvRequest r) (schedule E) /\
    Values_Get (Query r) "state" = run_state Scenario.world0 /\
    Values_Get (Query r) "code" = "ABC123".
Proof.
  cbv zeta.
  assert (In "ABC123"
            (exchanged (trace (snd (tokenInteractive
               (Scenario.env [EvRequest Scenario.req_forged;
                              EvRequest Scenario.req_code; EvSelect true])
               (Scenario.auth
                  (Scenario.env [EvRequest Scenario.req_forged;
                                 EvRequest Scenario.req_code; EvSelect true]))
               Scenario.world0))))) as Hin
    by (vm_compute; left; reflexivity).
  split; [exact Hin|].
  destruct (exchange_needs_valid_state _ _ _ _ Hin)
    as [Habs|(r & Hr & _ & Hs & _ & Hc & _)].
  - vm_compute in Habs. destruct Habs.
  - exists r. auto.
Defined.

(** ** Failure, cancellation and silence *)

Lemma errors_Is_refl (e : error) : errors_Is e e = true.
Proof.
  assert (bool_decide (e = e) = true) as H
    by (apply bool_decide_eq_true_2; reflexivity).
  destruct e; cbn [errors_Is]; rewrite H; reflexivity.
Qed.

Lemma errors_Is_wrap (prefix : string) (e target : error) :
  errors_Is e target = true -> errors_Is (Errorf_w prefix e) target = true.
Proof.
  intros H. unfold Errorf_w. cbn [errors_Is]. rewrite H.
  apply orb_true_r.
Qed.

(** X7: when the context is cancelled before anything is offered to the
    channel, and nothing is offered between the cancellation and the
    next turn of the orchestrator's select, the run returns the cause of
    the cancellation, [ctx.Err()]; nothing is delivered, no code is
    exchanged, and the server and the listener are torn down. *)
Theorem cancellation_surfaces (E : Env) (a : Auth) (w : World)
    (show : string -> option error) (addr : string) (l : loc) (c0 : Config)
    (pre mid : list Event) (b : bool) (post : list Event) :
  ShowURL a = Some show ->
  show (run_redirect addr w) = None ->
  (16 <= List.length (entropy w))%nat ->
  net_Listen E = inl addr ->
  AuthConfig a = Some l ->
  heap w !! l = Some c0 ->
  schedule E = pre ++ EvCtxDone :: mid ++ EvSelect b :: post ->
  forallb (quiet (run_path w) (run_state w)) pre = true ->
  forallb (silent (run_path w) (run_state w)) mid = true ->
  let out := tokenInteractive E a w in
  fst out = Returned (None, Some (ctx_Err E)) /\
  fl_delivered (run_flow E addr w c0) = [] /\
  trace (snd out) =
    trace w ++ [EffListen addr; EffServe; EffShowURL (run_redirect addr w);
                EffShutdown; EffClose].
Proof.
  intros Hshow Hnone Hent Hln Hcfg Hc0 Hsched Hpre Hmid. cbv zeta.
  destruct (cancellation_wins (run_path w) (run_state w) (run_startURL E addr w c0)
              pre mid b post Hpre Hmid) as [Ho Hd].
  rewrite <- Hsched in Ho, Hd. fold (run_flow E addr w c0) in Ho, Hd.
  rewrite (tokenInteractive_bound E a w show addr l c0) by assumption.
  unfold run_result. rewrite Hnone, Ho.
  split; [reflexivity|]. split; [exact Hd|]. raw_trace. reflexivity.
Qed.

Lemma cancellation_surfaces_witness :
  let E := Scenario.env [EvRequest Scenario.req_probe; EvCtxDone;
                         EvRequest Scenario.req_forged; EvSelect true;
                         EvRequest Scenario.req_code] in
  fst (tokenInteractive E (Scenario.auth E) Scenario.world0) =
    Returned (None, Some (errorString "context canceled")).
Proof.
  cbv zeta.
  apply (cancellation_surfaces
    (Scenario.env [EvRequest Scenario.req_probe; EvCtxDone;
                   EvRequest Scenario.req_forged; EvSelect true;
                   EvRequest Scenario.req_code])
    (Scenario.auth
       (Scenario.env [EvRequest Scenario.req_probe; EvCtxDone;
                      EvRequest Scenario.req_forged; EvSelect true;
                      EvRequest Scenario.req_code]))
    Scenario.world0 PrintURL "127.0.0.1:4242" Scenario.cfg_loc Scenario.cfg0
    [EvRequest Scenario.req_probe] [EvRequest Scenario.req_forged] true
    [EvRequest Scenario.req_code]
    eq_refl eq_refl ltac:(vm_compute; lia) eq_refl eq_refl
    ltac:(vm_compute; reflexivity) eq_refl
    ltac:(vm_compute; reflexivity) ltac:(vm_compute; reflexivity)).
Defined.

(** X8: when the serve loop ends with an error before any request has
    concluded the flow and before any cancellation, and the context is
    not cancelled before the orchestrator's select has run, the run
    fails with that very error and no code is exchanged, even if a valid
    callback arrives afterwards. *)
Theorem serve_failure_surfaces (E : Env) (a : Auth) (w : World)
    (show : string -> option error) (addr : string) (l : loc) (c0 : Config)
    (pre : list Event) (e : error) (post1 : list Event) (b : bool)
    (post2 : list Event) :
  ShowURL a = Some show ->
  show (run_redirect addr w) = None ->
  (16 <= List.length (entropy w))%nat ->
  net_Listen E = inl addr ->
  AuthConfig a = Some l ->
  heap w !! l = Some c0 ->
  schedule E = pre ++ EvServeExit e :: post1 ++ EvSelect b :: post2 ->
  forallb (quiet (run_path w) (run_state w)) pre = true ->
  forallb no_cancel post1 = true ->
  let out := tokenInteractive E a w in
  fst out = Returned (None, Some e) /\
  exchanged (trace (snd out)) = exchanged (trace w).
Proof.
  intros Hshow Hnone Hent Hln Hcfg Hc0 Hsched Hpre Hpost1. cbv zeta.
  destruct (serve_exit_wins (run_path w) (run_state w) (run_startURL E addr w c0)
              pre e post1 b post2 Hpre Hpost1) as [Ho _].
  rewrite <- Hsched in Ho. fold (run_flow E addr w c0) in Ho.
  rewrite (tokenInteractive_bound E a w show addr l c0) by assumption.
  unfold run_result. rewrite Hnone, Ho. simpl.
  split; [reflexivity|]. trace_simpl. reflexivity.
Qed.

Lemma serve_failure_surfaces_witness :
  let E := Scenario.env [EvServeExit (errorString "accept: too many open files");
                         EvRequest Scenario.req_code; EvSelect true] in
  fst (tokenInteractive E (Scenario.auth E) Scenario.world0) =
    Returned (None, Some (errorString "accept: too many open files")).
Proof.
  cbv zeta.
  apply (serve_failure_surfaces
    (Scenario.env [EvServeExit (errorString "accept: too many open files");
                   EvRequest Scenario.req_code; EvSelect true])
    (Scenario.auth
       (Scenario.env [EvServeExit (errorString "accept: too many open files");
                      EvRequest Scenario.req_code; EvSelect true]))
    Scenario.world0 PrintURL "127.0.0.1:4242" Scenario.cfg_loc Scenario.cfg0
    [] (errorString "accept: too many open files")
    [EvRequest Scenario.req_code] true []
    eq_refl eq_refl ltac:(vm_compute; lia) eq_refl eq_refl
    ltac:(vm_compute; reflexivity) eq_refl
    ltac:(vm_compute; reflexivity) ltac:(vm_compute; reflexivity)).
Defined.

(** X9: when the presentation of the URL fails, the run returns that
    error at once, whatever the schedule holds: the server was already
    up, so the requests that came in while the URL was being presented
    have been answered, but even a valid callback among them is not
    exchanged; the server and the listener are torn down. *)
Theorem presentation_failure_aborts (E : Env) (a : Auth) (w : World)
    (show : string -> option error) (addr : string) (l : loc) (c0 : Config)
    (e : error) :
  ShowURL a = Some show ->
  show (run_redirect addr w) = Some e ->
  (16 <= List.length (entropy w))%nat ->
  net_Listen E = inl addr ->
  AuthConfig a = Some l ->
  heap w !! l = Some c0 ->
  let out := tokenInteractive E a w in
  fst out = Returned (None, Some e) /\
  exchanged (trace (snd out)) = exchanged (trace w) /\
  served (snd out) =
    served w ++
    fl_responses (flow_run (run_path w) (run_state w) (run_startURL E addr w c0)
                           flow_init (before_select (schedule E))) /\
  trace (snd out) =
    trace w ++ [EffListen addr; EffServe; EffShowURL (run_redirect addr w);
                EffShutdown; EffClose].
Proof.
  intros Hshow Hsome Hent Hln Hcfg Hc0. cbv zeta.
  rewrite (tokenInteractive_bound E a w show addr l c0) by assumption.
  unfold run_result. rewrite Hsome.
  split; [reflexivity|]. split; [trace_simpl; reflexivity|].
  split; [reflexivity|]. raw_trace. reflexivity.
Qed.

Lemma presentation_failure_aborts_witness :
  let E := Scenario.env [EvRequest Scenario.req_code; EvSelect true] in
  let out := tokenInteractive E (CacheScenario.auth_broken_show E) Scenario.world0 in
  fst out = Returned (None, Some (errorString "no display")) /\
  exchanged (trace (snd out)) = [] /\
  served (snd out) = [http_Page "text/html" success_page].
Proof.
  cbv zeta.
  pose proof (presentation_failure_aborts
    (Scenario.env [EvRequest Scenario.req_code; EvSelect true])
    (CacheScenario.auth_broken_show
       (Scenario.env [EvRequest Scenario.req_code; EvSelect true]))
    Scenario.world0 CacheScenario.broken_show "127.0.0.1:4242"
    Scenario.cfg_loc Scenario.cfg0 (errorString "no display")
    eq_refl eq_refl ltac:(vm_compute; lia) eq_refl eq_refl
    ltac:(vm_compute; reflexivity)) as H.
  cbv zeta in H. destruct H as (H1 & H2 & H3 & _).
  split; [exact H1|]. split; [exact H2|].
  vm_compute in H3. vm_compute. exact H3.
Defined.

(** X10: when the listener cannot be bound, the run returns the error of
    [net.Listen] wrapped under "creating socket for local HTTP server",
    still recognisable by [errors.Is]; one nonce has been drawn, but the
    configuration is untouched, nothing is presented and no effect is
    recorded. *)
Theorem listen_failure_reported (E : Env) (a : Auth) (w : World)
    (show : string -> option error) (e : error) :
  ShowURL a = Some show ->
  (8 <= List.length (entropy w))%nat ->
  net_Listen E = inr e ->
  let out := tokenInteractive E a w in
  fst out = Returned (None, Some (wrapError
              ("creating socket for local HTTP server: " +:+ Error e) e)) /\
  (forall err', fst out = Returned (None, Some err') -> errors_Is err' e = true) /\
  heap (snd out) = heap w /\ trace (snd out) = trace w /\
  entropy (snd out) = drop 8 (entropy w).
Proof.
  intros Hshow Hent Hln. cbv zeta.
  unfold tokenInteractive. rewrite Hshow, Hln.
  rewrite bind_randhex by lia. simpl.
  split; [reflexivity|]. split; [|auto].
  intros err' [= <-]. apply (errors_Is_wrap _ e e), errors_Is_refl.
Qed.

Lemma listen_failure_reported_witness :
  let E := Scenario.env_with Scenario.provider_Exchange
             (inr (syscallErrno EACCES)) [] in
  fst (tokenInteractive E (Scenario.auth E) Scenario.world0) =
    Returned (None, Some (wrapError
      "creating socket for local HTTP server: permission denied"
      (syscallErrno EACCES))).
Proof.
  cbv zeta.
  apply (listen_failure_reported
    (Scenario.env_with Scenario.provider_Exchange (inr (syscallErrno EACCES)) [])
    (Scenario.auth
       (Scenario.env_with Scenario.provider_Exchange (inr (syscallErrno EACCES)) []))
    Scenario.world0 PrintURL (syscallErrno EACCES)
    eq_refl ltac:(vm_compute; lia) eq_refl).
Defined.

(** X11: the orchestrator has no timeout of its own.  As long as the
    schedule holds only requests that do not conclude the flow (wrong
    path, missing or wrong state) and turns of the orchestrator, the
    run never returns: nothing is delivered, no code is exchanged, and
    the server is neither shut down nor the listener closed. *)
Theorem unconcluded_flow_blocks (E : Env) (a : Auth) (w : World)
    (show : string -> option error) (addr : string) (l : loc) (c0 : Config) :
  ShowURL a = Some show ->
  show (run_redirect addr w) = None ->
  (16 <= List.length (entropy w))%nat ->
  net_Listen E = inl addr ->
  AuthConfig a = Some l ->
  heap w !! l = Some c0 ->
  forallb (quiet (run_path w) (run_state w)) (schedule E) = true ->
  let out := tokenInteractive E a w in
  fst out = Blocked /\
  fl_delivered (run_flow E addr w c0) = [] /\
  trace (snd out) =
    trace w ++ [EffListen addr; EffServe; EffShowURL (run_redirect addr w)] /\
  served (snd out) = served w ++ fl_responses (run_flow E addr w c0).
Proof.
  intros Hshow Hnone Hent Hln Hcfg Hc0 Hq. cbv zeta.
  destruct (quiet_schedule_waits (run_path w) (run_state w)
              (run_startURL E addr w c0) (schedule E) Hq) as [Ho Hd].
  fold (run_flow E addr w c0) in Ho, Hd.
  rewrite (tokenInteractive_bound E a w show addr l c0) by assumption.
  unfold run_result. rewrite Hnone, Ho.
  split; [reflexivity|]. split; [exact Hd|].
  split; [raw_trace; reflexivity|].
  rewrite (run_answered_waiting E addr w c0 Ho). reflexivity.
Qed.

Lemma unconcluded_flow_blocks_witness :
  let E := Scenario.env [EvRequest Scenario.req_forged; EvSelect true;
                         EvRequest Scenario.req_empty_state;
                         EvRequest (mkRequest "/favicon.ico" ∅); EvSelect false] in
  fst (tokenInteractive E (Scenario.auth E) Scenario.world0) = Blocked.
Proof.
  cbv zeta.
  apply (unconcluded_flow_blocks
    (Scenario.env [EvRequest Scenario.req_forged; EvSelect true;
                   EvRequest Scenario.req_empty_state;
                   EvRequest (mkRequest "/favicon.ico" ∅); EvSelect false])
    (Scenario.auth
       (Scenario.env [EvRequest Scenario.req_forged; EvSelect true;
                      EvRequest Scenario.req_empty_state;
                      EvRequest (mkRequest "/favicon.ico" ∅); EvSelect false]))
    Scenario.world0 PrintURL "127.0.0.1:4242" Scenario.cfg_loc Scenario.cfg0
    eq_refl eq_refl ltac:(vm_compute; lia) eq_refl eq_refl
    ltac:(vm_compute; reflexivity) ltac:(vm_compute; reflexivity)).
Defined.

(** ** The file store *)

(** A write that reports no error went through its three steps. *)
Lemma fileStore_Write_nil (E : Env) (f : string) (tok : Token)
      (fs : gmap string FileEntry) :
  fst (fileStore_Write E f tok fs) = None <->
  exists bs fs1 fs2,
    json_Marshal E tok = inl bs /\
    os_MkdirAll E (filepath_Dir E f) fs = (None, fs1) /\
    os_WriteFile E f bs fs1 = (None, fs2) /\
    snd (fileStore_Write E f tok fs) = fs2.
Proof.
  unfold fileStore_Write.
  destruct (json_Marshal E tok) as [bs|e]; simpl.
  2:{ split; [discriminate|]. intros (? & ? & ? & ? & _). discriminate. }
  destruct (os_MkdirAll E (filepath_Dir E f) fs) as [[e|] fs1]; simpl.
  { split; [discriminate|]. intros (? & ? & ? & _ & ? & _). discriminate. }
  destruct (os_WriteFile E f bs fs1) as [[e|] fs2] eqn:Hw; simpl.
  - split; [discriminate|].
    intros (bs' & fs1' & fs2' & [= <-] & [= <-] & Hw' & _).
    rewrite Hw in Hw'. discriminate.
  - split; [|reflexivity]. intros _. exists bs, fs1, fs2. auto.
Qed.

Lemma fileStore_Read_bytes (E : Env) (f : string) (tok : Token)
      (bs : list Byte.byte) (fs : gmap string FileEntry) :
  os_ReadFile E f fs = (bs, None) ->
  json_Unmarshal E bs = inl tok ->
  fileStore_Read E f fs = (Some tok, None).
Proof.
  intros Hr Hu. unfold fileStore_Read. rewrite Hr. simpl. rewrite Hu. reflexivity.
Qed.

Lemma fileStore_Write_Read (E : Env) (f : string) (tok : Token)
      (fs : gmap string FileEntry) :
  fst (fileStore_Write E f tok fs) = None ->
  round_trips E tok ->
  reads_back E f ->
  fileStore_Read E f (snd (fileStore_Write E f tok fs)) = (Some tok, None).
Proof.
  intros Hnil Hrt Hrb.
  apply fileStore_Write_nil in Hnil as (bs & fs1 & fs2 & Hm & _ & Hw & ->).
  apply (fileStore_Read_bytes E f tok bs); [exact (Hrb bs fs1 fs2 Hw)|].
  apply Hrt, Hm.
Qed.

(** The stand-in file system reads back what it wrote to the cache
    file, and the stand-in codec round-trips its token. *)
Lemma mem_reads_back (ln : string + error) (sched : list Event) :
  reads_back (CacheScenario.env ln sched) Scenario.cache_file.
Proof.
  intros bs fs1 fs2. simpl.
  unfold Scenario.mem_WriteFile, Scenario.mem_ReadFile.
  change (Scenario.reach (Scenario.parents Scenario.cache_file) fs1) with (@None Errno).
  change (Scenario.reach (Scenario.parents Scenario.cache_file) fs2) with (@None Errno).
  destruct (fs1 !! Scenario.cache_file) as [[c| |]|]; intros [= <-];
    rewrite lookup_insert_eq; reflexivity.
Qed.

Lemma mem_round_trips (ln : string + error) (sched : list Event) :
  round_trips (CacheScenario.env ln sched) CacheScenario.cached.
Proof. intros bs [= <-]. reflexivity. Qed.

(** X12: with a token in the cache [TokenSource] returns a source over
    that token and leaves the world as it is: no entropy is read, no
    listener is bound and no URL is presented, whether or not a
    presentation capability is configured. *)
Theorem cached_token_skips_interaction (E : Env) (a : Auth) (s : Storage)
    (w : World) (t : Token) :
  AuthStorage a = Some s ->
  Storage_Read s (files w) = (Some t, None) ->
  TokenSource E a w = (Returned (Some (mkTokenSource (AuthConfig a) t), None), w) /\
  tokenFromStorage a w = (Returned (Some t, None), w).
Proof.
  intros Hs Hr. split.
  - apply (TokenSource_cached E a s w t Hs Hr).
  - rewrite tokenFromStorage_run, Hs, Hr. reflexivity.
Qed.

Lemma cached_token_skips_interaction_witness :
  let E := CacheScenario.env (inr (syscallErrno EACCES)) [] in
  let a := mkAuth (Some Scenario.cfg_loc) (Some (FileStore E Scenario.cache_file)) None in
  TokenSource E a CacheScenario.world_cached =
    (Returned (Some (mkTokenSource (Some Scenario.cfg_loc) CacheScenario.cached), None),
     CacheScenario.world_cached).
Proof.
  cbv zeta.
  apply (cached_token_skips_interaction
    (CacheScenario.env (inr (syscallErrno EACCES)) [])
    (mkAuth (Some Scenario.cfg_loc)
       (Some (FileStore (CacheScenario.env (inr (syscallErrno EACCES)) [])
                        Scenario.cache_file)) None)
    (FileStore (CacheScenario.env (inr (syscallErrno EACCES)) []) Scenario.cache_file)
    CacheScenario.world_cached CacheScenario.cached
    eq_refl ltac:(vm_compute; reflexivity)).
Defined.

(** X13: a write that reports no error, followed by a read of the same
    file store, gives the token back, provided the JSON codec gives the
    token back from its own output and the operating system reads back
    from the path what the write has put there. *)
Theorem file_store_round_trip (E : Env) (f : string) (tok : Token)
    (fs : gmap string FileEntry) :
  fst (fileStore_Write E f tok fs) = None ->
  round_trips E tok ->
  reads_back E f ->
  fileStore_Read E f (snd (fileStore_Write E f tok fs)) = (Some tok, None).
Proof. apply fileStore_Write_Read. Qed.

Lemma file_store_round_trip_witness :
  let E := CacheScenario.env (inl "127.0.0.1:4242") [] in
  fst (fileStore_Write E Scenario.cache_file CacheScenario.cached
         (files Scenario.world_corrupt)) = None /\
  fileStore_Read E Scenario.cache_file
    (snd (fileStore_Write E Scenario.cache_file CacheScenario.cached
            (files Scenario.world_corrupt))) = (Some CacheScenario.cached, None).
Proof.
  cbv zeta. split; [vm_compute; reflexivity|].
  apply (file_store_round_trip
    (CacheScenario.env (inl "127.0.0.1:4242") [])
    Scenario.cache_file CacheScenario.cached (files Scenario.world_corrupt)).
  - vm_compute; reflexivity.
  - apply mem_round_trips.
  - apply mem_reads_back.
Defined.



(** X15: the cache is filled by the caller.  Once the store's [Write]
    has put a token there without an error, a call of [TokenSource] on
    the file system it leaves returns a source over that token without
    any interaction and leaves that world as it is, under the same
    provisos on the codec and the operating system. *)
Theorem persisted_token_reused (E : Env) (a : Auth) (f : string) (tok : Token)
    (w : World) :
  AuthStorage a = Some (FileStore E f) ->
  fst (fileStore_Write E f tok (files w)) = None ->
  round_trips E tok ->
  reads_back E f ->
  let w' := with_files (snd (fileStore_Write E f tok (files w))) w in
  TokenSource E a w' =
    (Returned (Some (mkTokenSource (AuthConfig a) tok), None), w').
Proof.
  intros Hs Hnil Hrt Hrb. cbv zeta.
  apply (TokenSource_cached E a (FileStore E f)); [exact Hs|].
  apply (fileStore_Write_Read E f tok (files w) Hnil Hrt Hrb).
Qed.

Lemma persisted_token_reused_witness :
  let E := CacheScenario.env (inl "127.0.0.1:4242") [] in
  let w' := with_files (snd (fileStore_Write E Scenario.cache_file
                               CacheScenario.cached (files Scenario.world0)))
                       Scenario.world0 in
  fileStore_Read E Scenario.cache_file (files Scenario.world0) = (None, None) /\
  fst (fileStore_Write E Scenario.cache_file CacheScenario.cached
         (files Scenario.world0)) = None /\
  TokenSource E (Scenario.auth E) w' =
    (Returned (Some (mkTokenSource (Some Scenario.cfg_loc) CacheScenario.cached), None),
     w').
Proof.
  cbv zeta. split; [vm_compute; reflexivity|]. split; [vm_compute; reflexivity|].
  apply (persisted_token_reused
    (CacheScenario.env (inl "127.0.0.1:4242") [])
    (Scenario.auth (CacheScenario.env (inl "127.0.0.1:4242") []))
    Scenario.cache_file CacheScenario.cached Scenario.world0).
  - reflexivity.
  - vm_compute; reflexivity.
  - apply mem_round_trips.
  - apply mem_reads_back.
Defined.
